(** * The GTM outreach pipeline: response parsing, stage runners, orchestration

    A shallow embedding of [ai_email_gtm_outreach_agent.py] and [prompts.py].

    The program is glue around two things it does not own: Python's [json]
    module and the agent framework.  The first is modelled by an executable
    decoder and encoder written after [json/decoder.py], [json/scanner.py]
    and [json/encoder.py]; the second is a parameter of the development
    (section [Pipeline]), so every statement about a run holds for whatever
    the agents answer.

    Conventions.
    - A Python [str] is a Rocq [string] holding its UTF-8 encoding; the
      characters the program searches for (braces, quotes, digits) are ASCII,
      so offsets into ASCII text agree with Python's.
    - An exception is a value of [exn]; a call that may raise returns a
      [result].
    - A JSON number written with a fraction or an exponent is kept as its
      literal ([JFloat]); binary floating point is not interpreted.
    - CPython's recursion limit and its limit on the number of digits of an
      integer are no part of modules [Json] and [App]; module [Limits] has
      the decoder, the encoder and the parser with them. *)

From Stdlib Require Import String Ascii List ZArith Lia Bool.
From Stdlib Require Import DecimalString DecimalZ DecimalFacts DecimalPos DecimalN.
Import ListNotations.

Local Open Scope list_scope.
Local Open Scope string_scope.
Local Open Scope Z_scope.

(** ** Exceptions and results *)

Inductive exn : Type :=
| JSONDecodeError (msg doc : string) (pos : nat)
| ValueError (msg : string)
| AttributeError (msg : string)
| TypeError (msg : string)
| RecursionError (msg : string)
| AgentError (msg : string).

Inductive result (A : Type) : Type :=
| Ok (a : A)
| Raise (e : exn).

Arguments Ok {A} a.
Arguments Raise {A} e.

(** ** Python strings *)

Module Py.

Definition nl : string := String "010"%char EmptyString.
Definition dquote : ascii := "034"%char.
Definition backslash : ascii := "\"%char.
Definition dq : string := String dquote EmptyString.

Definition is_digit (c : ascii) : bool :=
  (48 <=? nat_of_ascii c)%nat && (nat_of_ascii c <=? 57)%nat.

(** [s.startswith(p)] *)
Definition startswith (s p : string) : bool := String.prefix p s.

(** [s[n:]] for [0 <= n] *)
Fixpoint drop (n : nat) (s : string) : string :=
  match n, s with
  | O, _ => s
  | S n', String _ r => drop n' r
  | S _, EmptyString => EmptyString
  end.

(** [s[:n]] for [0 <= n] *)
Fixpoint take (n : nat) (s : string) : string :=
  match n, s with
  | O, _ => EmptyString
  | S n', String c r => String c (take n' r)
  | S _, EmptyString => EmptyString
  end.

(** A slice bound in the sense of [PySlice_AdjustIndices]: a negative bound
    counts from the end, and the result is clamped to [0 .. len]. *)
Definition adjust_index (len i : Z) : nat :=
  let i' := if i <? 0 then i + len else i in
  Z.to_nat (Z.min len (Z.max 0 i')).

(** [s[lo:hi]] *)
Definition slice (s : string) (lo hi : Z) : string :=
  let len := Z.of_nat (String.length s) in
  let a := adjust_index len lo in
  let b := adjust_index len hi in
  take (b - a) (drop a s).

(** [s.find(sub)]: the lowest index where [sub] occurs, or [-1]. *)
Fixpoint find_from (i : Z) (s sub : string) : Z :=
  if String.prefix sub s then i
  else match s with
       | EmptyString => -1
       | String _ r => find_from (i + 1) r sub
       end.

Definition find (s sub : string) : Z := find_from 0 s sub.

(** [s.rfind(sub)]: the highest index where [sub] occurs, or [-1]. *)
Fixpoint rfind_from (i : Z) (s sub : string) : Z :=
  let later := match s with
               | EmptyString => -1
               | String _ r => rfind_from (i + 1) r sub
               end in
  if later =? -1 then (if String.prefix sub s then i else -1) else later.

Definition rfind (s sub : string) : Z := rfind_from 0 s sub.

(** [sub in s] *)
Fixpoint contains (s sub : string) : bool :=
  String.prefix sub s ||
  match s with
  | EmptyString => false
  | String _ r => contains r sub
  end.

(** ASCII white space in the sense of [str.isspace]. *)
Definition is_space (c : ascii) : bool :=
  let n := nat_of_ascii c in
  ((9 <=? n) && (n <=? 13) || (28 <=? n) && (n <=? 32))%nat.

Fixpoint lstrip (s : string) : string :=
  match s with
  | String c r => if is_space c then lstrip r else s
  | EmptyString => s
  end.

Fixpoint rstrip (s : string) : string :=
  match s with
  | EmptyString => EmptyString
  | String c r =>
      match rstrip r with
      | EmptyString => if is_space c then EmptyString else String c EmptyString
      | r' => String c r'
      end
  end.

(** [s.strip()] (the non-ASCII white space of Unicode is left alone) *)
Definition strip (s : string) : string := rstrip (lstrip s).

(** [str(n)] for an [int] *)
Definition repr_Z (z : Z) : string := NilZero.string_of_int (Z.to_int z).
Definition repr_nat (n : nat) : string := repr_Z (Z.of_nat n).

(** [sep.join(l)] *)
Fixpoint join (sep : string) (l : list string) : string :=
  match l with
  | [] => EmptyString
  | [x] => x
  | x :: r => x ++ sep ++ join sep r
  end.

(** [s.count(nl, 0, pos)] and [s.rfind(nl, 0, pos)] as [JSONDecodeError]
    uses them to compute a line and a column. *)
Fixpoint count_nl (n : nat) (s : string) : nat :=
  match n, s with
  | S n', String c r => ((if Ascii.eqb c "010" then 1 else 0) + count_nl n' r)%nat
  | _, _ => 0%nat
  end.

Definition str_of_exn (e : exn) : string :=
  match e with
  | JSONDecodeError msg doc pos =>
      let lineno := S (count_nl pos doc) in
      let colno := Z.of_nat pos - rfind (take pos doc) nl in
      msg ++ ": line " ++ repr_nat lineno ++ " column " ++ repr_Z colno
          ++ " (char " ++ repr_nat pos ++ ")"
  | ValueError msg | AttributeError msg | TypeError msg
  | RecursionError msg | AgentError msg => msg
  end.

End Py.

(** ** JSON values, decoder and encoder *)

Module Json.
Import Py.

(** What [json.loads] builds: [None], [bool], [int], [float], [str], [list]
    and [dict].  A [dict] keeps its keys in insertion order. *)
Unset Elimination Schemes.
Inductive json : Type :=
| JNull
| JBool (b : bool)
| JInt (z : Z)
| JFloat (lit : string)
| JStr (s : string)
| JList (l : list json)
| JDict (kvs : list (string * json)).
Set Elimination Schemes.

(** Induction over a value and, through [Forall], over the members of its
    containers. *)
Fixpoint json_ind (P : json -> Prop)
  (HNull : P JNull) (HBool : forall b, P (JBool b)) (HInt : forall z, P (JInt z))
  (HFloat : forall lit, P (JFloat lit)) (HStr : forall s, P (JStr s))
  (HList : forall l, Forall P l -> P (JList l))
  (HDict : forall kvs, Forall (fun kv => P (snd kv)) kvs -> P (JDict kvs))
  (x : json) {struct x} : P x :=
  let rec := json_ind P HNull HBool HInt HFloat HStr HList HDict in
  match x with
  | JNull => HNull
  | JBool b => HBool b
  | JInt z => HInt z
  | JFloat lit => HFloat lit
  | JStr s => HStr s
  | JList l =>
      HList l ((fix all (l : list json) : Forall P l :=
                  match l with
                  | [] => Forall_nil _
                  | y :: r => Forall_cons y (rec y) (all r)
                  end) l)
  | JDict kvs =>
      HDict kvs ((fix all (l : list (string * json))
                    : Forall (fun kv => P (snd kv)) l :=
                    match l with
                    | [] => Forall_nil _
                    | kv :: r => Forall_cons kv (rec (snd kv)) (all r)
                    end) kvs)
  end.

(** [d[k] = v] on an insertion-ordered dictionary *)
Fixpoint dict_set (d : list (string * json)) (k : string) (v : json)
  : list (string * json) :=
  match d with
  | [] => [(k, v)]
  | (k', v') :: r =>
      if String.eqb k k' then (k, v) :: r else (k', v') :: dict_set r k v
  end.

(** [dict(pairs)]: a later pair replaces the value of an equal earlier key. *)
Definition py_dict (pairs : list (string * json)) : list (string * json) :=
  fold_left (fun d kv => dict_set d (fst kv) (snd kv)) pairs [].

(** [d.get(k)] *)
Fixpoint dict_get (d : list (string * json)) (k : string) : option json :=
  match d with
  | [] => None
  | (k', v) :: r => if String.eqb k k' then Some v else dict_get r k
  end.

(** *** Decoder *)

(** Outcome of a scanning function: a value and the text left after it, an
    error at a suffix of the document, or recursion too deep. *)
Inductive pres (A : Type) : Type :=
| POk (a : A) (rest : string)
| PErr (msg : string) (at_suffix : string)
| PFuel.

Arguments POk {A} a rest.
Arguments PErr {A} msg at_suffix.
Arguments PFuel {A}.

Definition pmap {A B : Type} (f : A -> B) (r : pres A) : pres B :=
  match r with
  | POk a rest => POk (f a) rest
  | PErr m a => PErr m a
  | PFuel => PFuel
  end.

(** [WHITESPACE = ' \t\n\r'] *)
Definition is_ws (c : ascii) : bool :=
  Ascii.eqb c " " || Ascii.eqb c "009" || Ascii.eqb c "010" || Ascii.eqb c "013".

Fixpoint skip_ws (s : string) : string :=
  match s with
  | String c r => if is_ws c then skip_ws r else s
  | EmptyString => s
  end.

Definition hexval (c : ascii) : option N :=
  let n := N_of_ascii c in
  (if (48 <=? n) && (n <=? 57) then Some (n - 48)
   else if (97 <=? n) && (n <=? 102) then Some (n - 87)
   else if (65 <=? n) && (n <=? 70) then Some (n - 55)
   else None)%N.

(** [int(esc, 16)] on four characters matched by [[0-9A-Fa-f]{4}] *)
Definition hex4 (a b c d : ascii) : option N :=
  match hexval a, hexval b, hexval c, hexval d with
  | Some x, Some y, Some z, Some w => Some (((x * 16 + y) * 16 + z) * 16 + w)%N
  | _, _, _, _ => None
  end.

(** [chr(u)], as UTF-8 *)
Definition chr (u : N) : string :=
  (if u <? 128 then String (ascii_of_N u) EmptyString
   else if u <? 2048 then
     String (ascii_of_N (192 + u / 64))
       (String (ascii_of_N (128 + u mod 64)) EmptyString)
   else if u <? 65536 then
     String (ascii_of_N (224 + u / 4096))
       (String (ascii_of_N (128 + (u / 64) mod 64))
          (String (ascii_of_N (128 + u mod 64)) EmptyString))
   else
     String (ascii_of_N (240 + u / 262144))
       (String (ascii_of_N (128 + (u / 4096) mod 64))
          (String (ascii_of_N (128 + (u / 64) mod 64))
             (String (ascii_of_N (128 + u mod 64)) EmptyString))))%N.

Definition is_high_surrogate (u : N) : bool := ((55296 <=? u) && (u <=? 56319))%N.
Definition is_low_surrogate (u : N) : bool := ((56320 <=? u) && (u <=? 57343))%N.
Definition join_surrogates (u u2 : N) : N :=
  (65536 + ((u - 55296) * 1024 + (u2 - 56320)))%N.

(** The [BACKSLASH] table of the decoder *)
Definition unescape (esc : ascii) : option ascii :=
  if Ascii.eqb esc dquote then Some dquote
  else if Ascii.eqb esc backslash then Some backslash
  else if Ascii.eqb esc "/" then Some "/"%char
  else if Ascii.eqb esc "b" then Some "008"%char
  else if Ascii.eqb esc "f" then Some "012"%char
  else if Ascii.eqb esc "n" then Some "010"%char
  else if Ascii.eqb esc "r" then Some "013"%char
  else if Ascii.eqb esc "t" then Some "009"%char
  else None.

Definition pcons (c : ascii) (r : pres string) : pres string := pmap (String c) r.
Definition papp (p : string) (r : pres string) : pres string := pmap (append p) r.

Definition unterminated : string := "Unterminated string starting at".
Definition bad_uXXXX : string := "Invalid \uXXXX escape".

(** [py_scanstring] with [strict=True].  [begin] is the document from the
    opening quote on, [s] the text after that quote.  The result is the
    decoded string and the text after the closing quote.  (The reference
    implementation appends the offending character to the text of the two
    messages about a control character and about an unknown escape; that
    suffix is left out.) *)
Fixpoint scanstring (begin s : string) : pres string :=
  match s with
  | EmptyString => PErr unterminated begin
  | String c r =>
      if Ascii.eqb c dquote then POk EmptyString r
      else if Ascii.eqb c backslash then
        match r with
        | EmptyString => PErr unterminated begin
        | String esc r1 =>
            if Ascii.eqb esc "u" then
              match r1 with
              | String h1 (String h2 (String h3 (String h4 r5))) =>
                  match hex4 h1 h2 h3 h4 with
                  | None => PErr bad_uXXXX r
                  | Some uni =>
                      if is_high_surrogate uni then
                        match r5 with
                        | String b2 (String u2 r7) =>
                            if Ascii.eqb b2 backslash && Ascii.eqb u2 "u" then
                              match r7 with
                              | String k1 (String k2 (String k3 (String k4 r11))) =>
                                  match hex4 k1 k2 k3 k4 with
                                  | None => PErr bad_uXXXX (String u2 r7)
                                  | Some uni2 =>
                                      if is_low_surrogate uni2
                                      then papp (chr (join_surrogates uni uni2))
                                                (scanstring begin r11)
                                      else papp (chr uni) (scanstring begin r5)
                                  end
                              | _ => PErr bad_uXXXX (String u2 r7)
                              end
                            else papp (chr uni) (scanstring begin r5)
                        | _ => papp (chr uni) (scanstring begin r5)
                        end
                      else papp (chr uni) (scanstring begin r5)
                  end
              | _ => PErr bad_uXXXX r
              end
            else
              match unescape esc with
              | Some c' => pcons c' (scanstring begin r1)
              | None => PErr "Invalid \escape" r
              end
        end
      else if (nat_of_ascii c <? 32)%nat then PErr "Invalid control character at" r
      else pcons c (scanstring begin r)
  end.

(** The longest run of decimal digits at the head of [s], and what follows. *)
Fixpoint digits (s : string) : string * string :=
  match s with
  | String c r =>
      if is_digit c then let (ds, rest) := digits r in (String c ds, rest)
      else (EmptyString, s)
  | EmptyString => (EmptyString, s)
  end.

(** [int(text)] on a run of decimal digits *)
Fixpoint int_of_digits_acc (acc : Z) (s : string) : Z :=
  match s with
  | String c r => int_of_digits_acc (10 * acc + (Z.of_nat (nat_of_ascii c) - 48)) r
  | EmptyString => acc
  end.

Definition int_of_digits (ds : string) : Z := int_of_digits_acc 0 ds.

(** The three groups of [NUMBER_RE]: an optional minus sign and either a
    single zero or a non-zero digit and more digits; optionally a point and
    one or more digits; optionally an exponent mark, a sign and one or more
    digits. *)
Definition match_unsigned (s : string) : option (string * string) :=
  match s with
  | String c r =>
      if Ascii.eqb c "0" then Some (String c EmptyString, r)
      else if is_digit c then
        let (ds, rest) := digits r in Some (String c ds, rest)
      else None
  | EmptyString => None
  end.

Definition match_integer (s : string) : option (bool * string * string) :=
  let (neg, s1) := match s with
                   | String c r => if Ascii.eqb c "-" then (true, r) else (false, s)
                   | EmptyString => (false, s)
                   end in
  match match_unsigned s1 with
  | Some (int_part, rest) => Some (neg, int_part, rest)
  | None => None
  end.

Definition match_frac (s : string) : string * string :=
  match s with
  | String c (String d r) =>
      if Ascii.eqb c "." && is_digit d then
        let (ds, rest) := digits r in (String c (String d ds), rest)
      else (EmptyString, s)
  | _ => (EmptyString, s)
  end.

Definition match_exp (s : string) : string * string :=
  match s with
  | String e r =>
      if Ascii.eqb e "e" || Ascii.eqb e "E" then
        let (sign, r1) := match r with
                          | String g r' =>
                              if Ascii.eqb g "+" || Ascii.eqb g "-"
                              then (String g EmptyString, r') else (EmptyString, r)
                          | EmptyString => (EmptyString, r)
                          end in
        match r1 with
        | String d r2 =>
            if is_digit d then
              let (ds, rest) := digits r2 in
              (String e (sign ++ String d ds), rest)
            else (EmptyString, s)
        | EmptyString => (EmptyString, s)
        end
      else (EmptyString, s)
  | EmptyString => (EmptyString, s)
  end.

Definition is_empty (s : string) : bool :=
  match s with EmptyString => true | _ => false end.

(** [match_number] followed by [parse_int] or [parse_float] *)
Definition scan_number (s : string) : option (json * string) :=
  match match_integer s with
  | None => None
  | Some (neg, int_part, rest) =>
      let (frac, rest1) := match_frac rest in
      let (exp, rest2) := match_exp rest1 in
      if is_empty frac && is_empty exp then
        Some (JInt (if neg then - int_of_digits int_part else int_of_digits int_part),
              rest2)
      else
        Some (JFloat ((if neg then "-" else EmptyString) ++ int_part ++ frac ++ exp),
              rest2)
  end.

Definition expecting_value : string := "Expecting value".
Definition expecting_name : string :=
  "Expecting property name enclosed in double quotes".
Definition expecting_colon : string := "Expecting ':' delimiter".
Definition expecting_comma : string := "Expecting ',' delimiter".

(** The branches of [scan_once] for the values that are not a string, an
    object or an array: the three names, a number, and the three constants
    of [parse_constant]. *)
Definition scan_literal (s : string) : pres json :=
  if startswith s "null" then POk JNull (drop 4 s)
  else if startswith s "true" then POk (JBool true) (drop 4 s)
  else if startswith s "false" then POk (JBool false) (drop 5 s)
  else
    match scan_number s with
    | Some (v, rest) => POk v rest
    | None =>
        if startswith s "NaN" then POk (JFloat "NaN") (drop 3 s)
        else if startswith s "Infinity" then POk (JFloat "Infinity") (drop 8 s)
        else if startswith s "-Infinity" then POk (JFloat "-Infinity") (drop 9 s)
        else PErr expecting_value s
    end.

(** [scan_once], [JSONArray] and [JSONObject].  [array_items] is the loop of
    [JSONArray] entered at a value, [object_items] the loop of [JSONObject]
    entered just after the opening quote of a key.  Each call, and each turn
    of a loop, uses one unit of [fuel]. *)
Fixpoint scan_once (fuel : nat) (s : string) : pres json :=
  match fuel with
  | O => PFuel
  | S f =>
      match s with
      | EmptyString => PErr expecting_value s
      | String c r =>
          if Ascii.eqb c dquote then pmap JStr (scanstring s r)
          else if Ascii.eqb c "{" then
            match skip_ws r with
            | String c1 r2 as r1 =>
                if Ascii.eqb c1 "}" then POk (JDict []) r2
                else if Ascii.eqb c1 dquote
                then pmap (fun pairs => JDict (py_dict pairs)) (object_items f r2)
                else PErr expecting_name r1
            | EmptyString => PErr expecting_name EmptyString
            end
          else if Ascii.eqb c "[" then
            match skip_ws r with
            | String c1 r2 as r1 =>
                if Ascii.eqb c1 "]" then POk (JList []) r2
                else pmap JList (array_items f r1)
            | EmptyString => pmap JList (array_items f EmptyString)
            end
          else scan_literal s
      end
  end

with array_items (fuel : nat) (s : string) : pres (list json) :=
  match fuel with
  | O => PFuel
  | S f =>
      match scan_once f s with
      | POk v r =>
          match skip_ws r with
          | String c r2 as r1 =>
              if Ascii.eqb c "]" then POk [v] r2
              else if Ascii.eqb c "," then pmap (cons v) (array_items f (skip_ws r2))
              else PErr expecting_comma r1
          | EmptyString => PErr expecting_comma EmptyString
          end
      | PErr m a => PErr m a
      | PFuel => PFuel
      end
  end

with object_items (fuel : nat) (s : string) : pres (list (string * json)) :=
  match fuel with
  | O => PFuel
  | S f =>
      match scanstring (String dquote s) s with
      | POk key r =>
          match skip_ws r with
          | String c r2 as r1 =>
              if Ascii.eqb c ":" then
                match scan_once f (skip_ws r2) with
                | POk v r4 =>
                    match skip_ws r4 with
                    | String c5 r6 as r5 =>
                        if Ascii.eqb c5 "}" then POk [(key, v)] r6
                        else if Ascii.eqb c5 "," then
                          match skip_ws r6 with
                          | String c7 r8 as r7 =>
                              if Ascii.eqb c7 dquote
                              then pmap (cons (key, v)) (object_items f r8)
                              else PErr expecting_name r7
                          | EmptyString => PErr expecting_name EmptyString
                          end
                        else PErr expecting_comma r5
                    | EmptyString => PErr expecting_comma EmptyString
                    end
                | PErr m a => PErr m a
                | PFuel => PFuel
                end
              else PErr expecting_colon r1
          | EmptyString => PErr expecting_colon EmptyString
          end
      | PErr m a => PErr m a
      | PFuel => PFuel
      end
  end.

(** The offset in [doc] at which the suffix [at_suffix] starts. *)
Definition offset (doc at_suffix : string) : nat :=
  (String.length doc - String.length at_suffix)%nat.

(** U+FEFF *)
Definition bom : string :=
  String "239"%char (String "187"%char (String "191"%char EmptyString)).

(** Enough fuel for any document: a call of [scan_once] on [n] characters
    needs at most [2 * n + 1] units (lemma [scan_fuel_enough]). *)
Definition fuel_for (s : string) : nat := (2 * String.length s + 1)%nat.

(** [json.loads(s)] for a [str] argument: [JSONDecoder.decode]. *)
Definition json_loads (s : string) : result json :=
  if startswith s bom
  then Raise (JSONDecodeError "Unexpected UTF-8 BOM (decode using utf-8-sig)" s 0)
  else
    match scan_once (fuel_for s) (skip_ws s) with
    | POk obj r =>
        match skip_ws r with
        | EmptyString => Ok obj
        | String _ _ as r' => Raise (JSONDecodeError "Extra data" s (offset s r'))
        end
    | PErr m a => Raise (JSONDecodeError m s (offset s a))
    | PFuel => Raise (RecursionError "maximum recursion depth exceeded")
    end.

(** *** Encoder *)

Definition hex_digit (n : N) : ascii :=
  (if n <? 10 then ascii_of_N (48 + n) else ascii_of_N (87 + n))%N.

(** [ESCAPE_DCT] of the encoder, as used with [ensure_ascii=False] *)
Definition escape_char (c : ascii) : string :=
  if Ascii.eqb c dquote then String backslash dq
  else if Ascii.eqb c backslash then String backslash (String backslash EmptyString)
  else if Ascii.eqb c "010" then "\n"
  else if Ascii.eqb c "013" then "\r"
  else if Ascii.eqb c "009" then "\t"
  else if Ascii.eqb c "012" then "\f"
  else if Ascii.eqb c "008" then "\b"
  else if (nat_of_ascii c <? 32)%nat then
    "\u00" ++ String (hex_digit (N_of_ascii c / 16))
                (String (hex_digit (N_of_ascii c mod 16)) EmptyString)
  else String c EmptyString.

Fixpoint escape (s : string) : string :=
  match s with
  | EmptyString => EmptyString
  | String c r => escape_char c ++ escape r
  end.

(** [py_encode_basestring] *)
Definition encode_basestring (s : string) : string := dq ++ escape s ++ dq.

(** [json.dumps(x, ensure_ascii=False)] with the default separators.  A float
    is written as the literal it was read from. *)
Fixpoint json_dumps (x : json) : string :=
  match x with
  | JNull => "null"
  | JBool true => "true"
  | JBool false => "false"
  | JInt z => repr_Z z
  | JFloat lit => lit
  | JStr s => encode_basestring s
  | JList l => "[" ++ join ", " (map json_dumps l) ++ "]"
  | JDict kvs =>
      "{" ++ join ", " (map (fun kv => encode_basestring (fst kv) ++ ": "
                                        ++ json_dumps (snd kv)) kvs) ++ "}"
  end.

End Json.

(** ** Python values at run time *)

Module Value.
Import Py Json.

(** Whether the mantissa of a float literal has a digit other than [0]. *)
Fixpoint mantissa_nonzero (s : string) : bool :=
  match s with
  | EmptyString => false
  | String c r =>
      if Ascii.eqb c "e" || Ascii.eqb c "E" then false
      else (is_digit c && negb (Ascii.eqb c "0")) || mantissa_nonzero r
  end.

(** [bool(x)].  A float is false when it is zero (a literal so small that it
    rounds to zero is not recognised as such). *)
Definition truthy (x : json) : bool :=
  match x with
  | JNull => false
  | JBool b => b
  | JInt z => negb (z =? 0)
  | JFloat lit =>
      startswith lit "NaN" || startswith lit "Infinity"
      || startswith lit "-Infinity" || mantissa_nonzero lit
  | JStr s => negb (is_empty s)
  | JList l => match l with [] => false | _ :: _ => true end
  | JDict kvs => match kvs with [] => false | _ :: _ => true end
  end.

Definition type_name (x : json) : string :=
  match x with
  | JNull => "NoneType"
  | JBool _ => "bool"
  | JInt _ => "int"
  | JFloat _ => "float"
  | JStr _ => "str"
  | JList _ => "list"
  | JDict _ => "dict"
  end.

(** [x.get(key, default)]: only a [dict] has the method. *)
Definition get (x : json) (key : string) (default : json) : result json :=
  match x with
  | JDict d =>
      Ok (match dict_get d key with Some v => v | None => default end)
  | _ => Raise (AttributeError ("'" ++ type_name x ++ "' object has no attribute 'get'"))
  end.

(** [x[:k]]: a prefix of a [list] or of a [str] (counted in the units of the
    representation); a [dict] rejects the slice as a key, the other types
    are not subscriptable. *)
Definition slice_to (x : json) (k : Z) : result json :=
  match x with
  | JList l => Ok (JList (firstn (adjust_index (Z.of_nat (List.length l)) k) l))
  | JStr s => Ok (JStr (slice s 0 k))
  | JDict _ => Raise (TypeError "unhashable type: 'slice'")
  | _ => Raise (TypeError ("'" ++ type_name x ++ "' object is not subscriptable"))
  end.

(** [len(x)] *)
Definition len (x : json) : result nat :=
  match x with
  | JList l => Ok (List.length l)
  | JStr s => Ok (String.length s)
  | JDict d => Ok (List.length d)
  | _ => Raise (TypeError ("object of type '" ++ type_name x ++ "' has no len()"))
  end.

End Value.

(** ** prompts.py *)

Module prompts.
Import Py.

Definition COMPANY_FINDER_INSTRUCTIONS : list string :=
  [ "You are CompanyFinderAgent. Use ExaTools to search the web for companies that match the targeting criteria.";
    "Return ONLY valid JSON with key 'companies' as a list; respect the requested limit provided in the user prompt.";
    "Each item must have: name, website, why_fit (1-2 lines)." ].

Definition CONTACT_FINDER_INSTRUCTIONS : list string :=
  [ "You are ContactFinderAgent. Use ExaTools to find 1-2 relevant decision makers per company and their emails if available.";
    "Prioritize roles from Founder's Office, GTM (Marketing/Growth), Sales leadership, Partnerships/Business Development, and Product Marketing.";
    "Search queries can include patterns like '<Company> email format', 'contact', 'team', 'leadership', and role titles.";
    "If direct emails are not found, infer likely email using common formats (e.g., first.last@domain), but mark inferred=true.";
    "Return ONLY valid JSON with key 'companies' as a list; each has: name, contacts: [{full_name, title, email, inferred}]" ].

Definition RESEARCH_AGENT_INSTRUCTIONS : list string :=
  [ "You are ResearchAgent. For each company, collect concise, valuable insights from:";
    "1) Their official website (about, blog, product pages)";
    "2) Reddit discussions (site:reddit.com mentions)";
    "Summarize 2-4 interesting, non-generic points per company that a human would bring up in an email to show genuine effort.";
    "Return ONLY valid JSON with key 'companies' as a list; each has: name, insights: [strings]." ].

Definition EMAIL_STYLES : list (string * string) :=
  [ ("Professional", "Style: Professional. Clear, respectful, and businesslike. Short paragraphs; no slang.");
    ("Casual", "Style: Casual. Friendly, approachable, first-name basis. No slang or emojis; keep it human.");
    ("Cold", "Style: Cold email. Strong hook in opening 2 lines, tight value proposition, minimal fluff, strong CTA.");
    ("Consultative", "Style: Consultative. Insight-led, frames observed problems and tailored solution hypotheses; soft CTA.") ].

(** [d.get(k)] on a dictionary of strings *)
Fixpoint lookup (d : list (string * string)) (k : string) : option string :=
  match d with
  | [] => None
  | (k', v) :: r => if String.eqb k k' then Some v else lookup r k
  end.

(** [get_email_writer_instructions].  The default of the [get] is the
    subscript [EMAIL_STYLES["Professional"]], evaluated first; the key is in
    the table, so the [None] branch (a [KeyError]) is never taken. *)
Definition get_email_writer_instructions (style_key : string) : list string :=
  let professional :=
    match lookup EMAIL_STYLES "Professional" with
    | Some v => v
    | None => EmptyString
    end in
  let style_instruction :=
    match lookup EMAIL_STYLES style_key with
    | Some v => v
    | None => professional
    end in
  [ "You are EmailWriterAgent. Write concise, personalized B2B outreach emails.";
    style_instruction;
    "Return ONLY valid JSON with key 'emails' as a list of items: {company, contact, subject, body}.";
    "Length: 120-160 words. Include 1-2 lines of strong personalization referencing research insights (company website and Reddit findings).";
    "CTA: suggest a short intro call; include sender company name and calendar link if provided." ].

(** The four templates, each with its [format] call: a replacement field is
    the text of the argument, a doubled brace of the template one brace. *)
Definition COMPANY_FINDER_PROMPT_TEMPLATE
  (max_companies : Z) (target_desc offering_desc : string) : string :=
  "Find exactly " ++ repr_Z max_companies
    ++ " companies that are a strong B2B fit given the user inputs." ++ nl
    ++ "Targeting: " ++ target_desc ++ nl
    ++ "Offering: " ++ offering_desc ++ nl
    ++ "For each, provide: name, website, why_fit (1-2 lines).".

Definition CONTACT_FINDER_PROMPT_TEMPLATE
  (target_desc offering_desc companies_json : string) : string :=
  "For each company below, find 2-3 relevant decision makers and emails (if available). Ensure at least 2 per company when possible, and cap at 3." ++ nl
    ++ "If not available, infer likely email and mark inferred=true." ++ nl
    ++ "Targeting: " ++ target_desc ++ nl ++ "Offering: " ++ offering_desc ++ nl
    ++ "Companies JSON: " ++ companies_json ++ nl
    ++ "Return JSON: {companies: [{name, contacts: [{full_name, title, email, inferred}]}]}".

Definition RESEARCH_PROMPT_TEMPLATE (companies_json : string) : string :=
  "For each company, gather 2-4 interesting insights from their website and Reddit that would help personalize outreach." ++ nl
    ++ "Companies JSON: " ++ companies_json ++ nl
    ++ "Return JSON: {companies: [{name, insights: [string, ...]}]}".

Definition EMAIL_WRITER_PROMPT_TEMPLATE
  (sender_name sender_company offering_desc calendar_link
   contacts_json research_json : string) : string :=
  "Write personalized outreach emails for the following contacts." ++ nl
    ++ "Sender: " ++ sender_name ++ " at " ++ sender_company ++ "." ++ nl
    ++ "Offering: " ++ offering_desc ++ "." ++ nl
    ++ "Calendar link: " ++ calendar_link ++ "." ++ nl
    ++ "Contacts JSON: " ++ contacts_json ++ nl
    ++ "Research JSON: " ++ research_json ++ nl
    ++ "Return JSON with key 'emails' as a list of {company, contact, subject, body}.".

End prompts.

(** ** ai_email_gtm_outreach_agent.py *)

Module App.
Import Py Json.

(** *** Agents *)

Inductive tool : Type :=
| ExaTools (category : option string).

(** The arguments of the [Agent] constructor. *)
Record Agent : Type := mkAgent {
  model : string;
  tools : list tool;
  db_file : string;
  enable_user_memories : bool;
  add_history_to_context : bool;
  num_history_runs : Z;
  session_id : string;
  debug_mode : bool;
  instructions : list string
}.

Definition create_company_finder_agent : Agent :=
  {| model := "gpt-4o";
     tools := [ExaTools (Some "company")];
     db_file := "tmp/gtm_outreach.db";
     enable_user_memories := true;
     add_history_to_context := true;
     num_history_runs := 6;
     session_id := "gtm_outreach_company_finder";
     debug_mode := true;
     instructions := prompts.COMPANY_FINDER_INSTRUCTIONS |}.

Definition create_contact_finder_agent : Agent :=
  {| model := "gpt-4o";
     tools := [ExaTools None];
     db_file := "tmp/gtm_outreach.db";
     enable_user_memories := true;
     add_history_to_context := true;
     num_history_runs := 6;
     session_id := "gtm_outreach_contact_finder";
     debug_mode := true;
     instructions := prompts.CONTACT_FINDER_INSTRUCTIONS |}.

Definition create_email_writer_agent (style_key : string) : Agent :=
  {| model := "gpt-5";
     tools := [];
     db_file := "tmp/gtm_outreach.db";
     enable_user_memories := true;
     add_history_to_context := true;
     num_history_runs := 6;
     session_id := "gtm_outreach_email_writer";
     debug_mode := false;
     instructions := prompts.get_email_writer_instructions style_key |}.

Definition create_research_agent : Agent :=
  {| model := "gpt-5";
     tools := [ExaTools None];
     db_file := "tmp/gtm_outreach.db";
     enable_user_memories := true;
     add_history_to_context := true;
     num_history_runs := 6;
     session_id := "gtm_outreach_researcher";
     debug_mode := true;
     instructions := prompts.RESEARCH_AGENT_INSTRUCTIONS |}.

(** *** The response parser *)

Definition extract_json_or_raise (text : string) : result json :=
  match json_loads text with
  | Ok v => Ok v
  | Raise e =>
      let start := find text "{" in
      let end_ := rfind text "}" in
      if negb (start =? -1) && negb (end_ =? -1) && (end_ >? start) then
        let candidate := slice text start (end_ + 1) in
        json_loads candidate
      else
        Raise (ValueError ("Failed to parse JSON: " ++ str_of_exn e ++ nl
                             ++ "Response was:" ++ nl ++ text))
  end.

(** *** The world a run acts on *)

Inductive msg_kind : Type := Info | Success | Error.

(** The bundle stored under [st.session_state["gtm_results"]]. *)
Record PipelineResult : Type := mkResult {
  companies : json;
  contacts : json;
  research : json;
  emails : json
}.

(** What a run does to the outside, in the order it does it. *)
Inductive event : Type :=
| EAgentRun (agent : Agent) (prompt : string)
| EStageMsg (kind : msg_kind) (text : string)
| EProgress (percent : Z)
| EDetails (text : string)
| EStError (text : string)
| ESessionWrite (r : PipelineResult).

(** [log] holds the events so far, the latest first; [gtm_results] is the
    entry of the session state, [None] while nothing was stored. *)
Record world : Type := mkWorld {
  log : list event;
  gtm_results : option PipelineResult
}.

(** A computation that acts on the world and may raise. *)
Definition M (A : Type) : Type := world -> result A * world.

Definition ret {A : Type} (a : A) : M A := fun w => (Ok a, w).

Definition bind {A B : Type} (c : M A) (k : A -> M B) : M B :=
  fun w =>
    match c w with
    | (Ok a, w1) => k a w1
    | (Raise e, w1) => (Raise e, w1)
    end.

Definition lift {A : Type} (r : result A) : M A := fun w => (r, w).

Definition tell (ev : event) : M unit :=
  fun w => (Ok tt, {| log := ev :: log w; gtm_results := gtm_results w |}).

Definition set_results (r : PipelineResult) : M unit :=
  fun w => (Ok tt, {| log := ESessionWrite r :: log w; gtm_results := Some r |}).

Notation "x <- c ;; k" := (bind c (fun x => k))
  (at level 61, c at next level, right associativity).
Notation "c ;;; k" := (bind c (fun _ => k))
  (at level 61, right associativity).

Section Pipeline.

(** [str(agent.run(prompt).content)]: the reply of the agent framework, or
    the exception it raises.  It may depend on everything that happened
    before (the agents keep their sessions). *)
Variable agent_reply : list event -> Agent -> string -> result string.

Definition agent_run (agent : Agent) (prompt : string) : M string :=
  fun w =>
    (agent_reply (log w) agent prompt,
     {| log := EAgentRun agent prompt :: log w; gtm_results := gtm_results w |}).

(** *** Stage runners *)

Definition run_company_finder (agent : Agent) (target_desc offering_desc : string)
  (max_companies : Z) : M json :=
  let prompt :=
    prompts.COMPANY_FINDER_PROMPT_TEMPLATE max_companies target_desc offering_desc in
  resp <- agent_run agent prompt ;;
  data <- lift (extract_json_or_raise resp) ;;
  companies <- lift (Value.get data "companies" (JList [])) ;;
  lift (Value.slice_to companies (Z.max 1 (Z.min max_companies 10))).

Definition run_contact_finder (agent : Agent) (companies : json)
  (target_desc offering_desc : string) : M json :=
  let prompt :=
    prompts.CONTACT_FINDER_PROMPT_TEMPLATE target_desc offering_desc
      (json_dumps companies) in
  resp <- agent_run agent prompt ;;
  data <- lift (extract_json_or_raise resp) ;;
  lift (Value.get data "companies" (JList [])).

Definition run_research (agent : Agent) (companies : json) : M json :=
  let prompt := prompts.RESEARCH_PROMPT_TEMPLATE (json_dumps companies) in
  resp <- agent_run agent prompt ;;
  data <- lift (extract_json_or_raise resp) ;;
  lift (Value.get data "companies" (JList [])).

Definition run_email_writer (agent : Agent) (contacts_data research_data : json)
  (offering_desc sender_name sender_company : string)
  (calendar_link : option string) : M json :=
  let prompt :=
    prompts.EMAIL_WRITER_PROMPT_TEMPLATE sender_name sender_company offering_desc
      (match calendar_link with Some l => l | None => "N/A" end)
      (json_dumps contacts_data) (json_dumps research_data) in
  resp <- agent_run agent prompt ;;
  data <- lift (extract_json_or_raise resp) ;;
  lift (Value.get data "emails" (JList [])).

(** *** main *)

(** The values of the widgets when the script runs. *)
Record Inputs : Type := mkInputs {
  openai_key : string;
  exa_key : string;
  target_desc : string;
  offering_desc : string;
  sender_name : string;
  sender_company : string;
  calendar_link : string;
  num_companies : Z;
  email_style : string
}.

(** [s or default] on strings *)
Definition or_else (s default : string) : string :=
  if is_empty s then default else s.

(** The body of the [try]. *)
Definition pipeline (i : Inputs) : M unit :=
  let company_agent := create_company_finder_agent in
  let contact_agent := create_contact_finder_agent in
  let research_agent := create_research_agent in
  let email_agent := create_email_writer_agent (email_style i) in
  tell (EStageMsg Info "1/4 Finding companies...") ;;;
  companies <- run_company_finder company_agent (strip (target_desc i))
                 (strip (offering_desc i)) (num_companies i) ;;
  tell (EProgress 25) ;;;
  n1 <- lift (Value.len companies) ;;
  tell (EDetails ("Found " ++ repr_nat n1 ++ " companies")) ;;;
  tell (EStageMsg Info "2/4 Finding contacts (2–3 per company)...") ;;;
  contacts_data <- (if Value.truthy companies
                    then run_contact_finder contact_agent companies
                           (strip (target_desc i)) (strip (offering_desc i))
                    else ret (JList [])) ;;
  tell (EProgress 50) ;;;
  n2 <- lift (Value.len contacts_data) ;;
  tell (EDetails ("Collected contacts for " ++ repr_nat n2 ++ " companies")) ;;;
  tell (EStageMsg Info "3/4 Researching insights (website + Reddit)...") ;;;
  research_data <- (if Value.truthy companies
                    then run_research research_agent companies
                    else ret (JList [])) ;;
  tell (EProgress 75) ;;;
  n3 <- lift (Value.len research_data) ;;
  tell (EDetails ("Compiled research for " ++ repr_nat n3 ++ " companies")) ;;;
  tell (EStageMsg Info "4/4 Writing personalized emails...") ;;;
  emails <- (if Value.truthy contacts_data
             then run_email_writer email_agent contacts_data research_data
                    (strip (offering_desc i))
                    (or_else (strip (sender_name i)) "Sales Team")
                    (or_else (strip (sender_company i)) "Our Company")
                    (if is_empty (strip (calendar_link i)) then None
                     else Some (strip (calendar_link i)))
             else ret (JList [])) ;;
  tell (EProgress 100) ;;;
  n4 <- lift (Value.len emails) ;;
  tell (EDetails ("Generated " ++ repr_nat n4 ++ " emails")) ;;;
  set_results {| companies := companies; contacts := contacts_data;
                 research := research_data; emails := emails |} ;;;
  tell (EStageMsg Success "Completed").

(** The handler of the "Start Outreach" button: validation, then the [try]
    with its [except Exception]. *)
Definition start_outreach (i : Inputs) (w : world) : world :=
  if is_empty (openai_key i) || is_empty (exa_key i) then
    snd (tell (EStError "Please provide API keys in the sidebar") w)
  else if is_empty (target_desc i) || is_empty (offering_desc i) then
    snd (tell (EStError "Please fill in target companies and offering") w)
  else
    match (tell (EProgress 0) ;;; pipeline i) w with
    | (Ok _, w1) => w1
    | (Raise e, w1) =>
        snd ((tell (EStageMsg Error "Pipeline failed") ;;;
              tell (EStError (str_of_exn e))) w1)
    end.

(** One run of the script: the handler when the button was pressed, then the
    results section, which shows what the session state holds. *)
Definition main (pressed : bool) (i : Inputs) (w : world)
  : world * option PipelineResult :=
  let w1 := if pressed then start_outreach i w else w in
  (w1, gtm_results w1).

End Pipeline.

End App.

(** ** The interpreter's limits

    [Json.json_loads] and [Json.json_dumps] are the decoder and the encoder
    as [json/decoder.py] and [json/encoder.py] describe them.  CPython runs
    them under two limits.  The conversion between an [int] and its decimal
    text refuses more than [sys.get_int_max_str_digits()] digits with a
    [ValueError].  And the C scanner and the C encoder enter every list and
    every dictionary through a recursive call that is counted against the
    recursion limit, so that nesting too deep ends in a [RecursionError].
    This module has the decoder and the encoder with both limits, and the
    response parser over them. *)

Module Limits.
Import Py Json.

(** The settings at a call: the digit limit ([0] switches it off;
    [sys.set_int_max_str_digits] accepts no other value below 640), and the
    number of containers, one inside the other, that the recursion limit
    still lets the encoder and the decoder enter. *)
Record limits : Type := {
  int_max_str_digits : nat;
  encoder_depth : nat;
  decoder_depth : nat
}.

(** The number of decimal digits of an integer, its sign apart. *)
Definition num_digits (z : Z) : nat := String.length (repr_Z (Z.abs z)).

Definition too_many_digits (lim : limits) (n : nat) : bool :=
  negb (int_max_str_digits lim =? 0)%nat && (int_max_str_digits lim <? n)%nat.

Definition exceeds_the_limit (lim : limits) : string :=
  "Exceeds the limit (" ++ repr_nat (int_max_str_digits lim)
    ++ " digits) for integer string conversion".

Definition increase_the_limit : string :=
  "; use sys.set_int_max_str_digits() to increase the limit".

(** What [int.__repr__] raises on too many digits, and what [int(text)]
    raises. *)
Definition int_to_str_error (lim : limits) : exn :=
  ValueError (exceeds_the_limit lim ++ increase_the_limit).

Definition str_to_int_error (lim : limits) (n : nat) : exn :=
  ValueError (exceeds_the_limit lim ++ ": value has " ++ repr_nat n ++ " digits"
                ++ increase_the_limit).

Definition too_deep (doing : string) : exn :=
  RecursionError ("maximum recursion depth exceeded" ++ doing).

(** The results of [f] on the members of [l] in order, up to the first that
    raises. *)
Fixpoint traverse {A B : Type} (f : A -> result B) (l : list A) : result (list B) :=
  match l with
  | [] => Ok []
  | y :: r =>
      match f y with
      | Ok b =>
          match traverse f r with
          | Ok bs => Ok (b :: bs)
          | Raise e => Raise e
          end
      | Raise e => Raise e
      end
  end.

(** *** Encoder *)

Section Encoder.

(** The text of [float.__repr__] for the float that a literal denotes:
    binary floating point is not interpreted, so this is a parameter. *)
Variable float_repr : string -> string.

Variable lim : limits.

(** [encoder_listencode_obj]: [depth] is the number of containers that may
    still be entered. *)
Fixpoint listencode_obj (depth : nat) (x : json) {struct depth} : result string :=
  match x with
  | JNull => Ok "null"
  | JBool true => Ok "true"
  | JBool false => Ok "false"
  | JInt z =>
      if too_many_digits lim (num_digits z) then Raise (int_to_str_error lim)
      else Ok (repr_Z z)
  | JFloat lit => Ok (float_repr lit)
  | JStr s => Ok (encode_basestring s)
  | JList l =>
      match depth with
      | O => Raise (too_deep " while encoding a JSON object")
      | S d =>
          match traverse (listencode_obj d) l with
          | Ok items => Ok ("[" ++ join ", " items ++ "]")
          | Raise e => Raise e
          end
      end
  | JDict kvs =>
      match depth with
      | O => Raise (too_deep " while encoding a JSON object")
      | S d =>
          match traverse (fun kv =>
                            match listencode_obj d (snd kv) with
                            | Ok v => Ok (encode_basestring (fst kv) ++ ": " ++ v)
                            | Raise e => Raise e
                            end) kvs with
          | Ok items => Ok ("{" ++ join ", " items ++ "}")
          | Raise e => Raise e
          end
      end
  end.

(** [json.dumps(x, ensure_ascii=False)] *)
Definition json_dumps (x : json) : result string :=
  listencode_obj (encoder_depth lim) x.

End Encoder.

(** *** Decoder *)

(** Outcome of a scanning function: as [pres], or an exception that is not a
    [JSONDecodeError]. *)
Inductive lres (A : Type) : Type :=
| LOk (a : A) (rest : string)
| LErr (msg : string) (at_suffix : string)
| LRaise (e : exn)
| LFuel.

Arguments LOk {A} a rest.
Arguments LErr {A} msg at_suffix.
Arguments LRaise {A} e.
Arguments LFuel {A}.

Definition lmap {A B : Type} (f : A -> B) (r : lres A) : lres B :=
  match r with
  | LOk a rest => LOk (f a) rest
  | LErr m a => LErr m a
  | LRaise e => LRaise e
  | LFuel => LFuel
  end.

Definition of_pres {A : Type} (r : pres A) : lres A :=
  match r with
  | POk a rest => LOk a rest
  | PErr m a => LErr m a
  | PFuel => LFuel
  end.

Section Decoder.

Variable lim : limits.

(** The values that are not a string, an object or an array.  [int(text)]
    counts the digits of the literal, which are those of its value: the
    integer part of a number has no leading zero. *)
Definition scan_literal (s : string) : lres json :=
  match Json.scan_literal s with
  | POk (JInt z) rest =>
      if too_many_digits lim (num_digits z)
      then LRaise (str_to_int_error lim (num_digits z))
      else LOk (JInt z) rest
  | r => of_pres r
  end.

(** [scan_once], [JSONArray] and [JSONObject] as in [Json], with the number
    [depth] of containers that may still be entered. *)
Fixpoint scan_once (depth fuel : nat) (s : string) {struct fuel} : lres json :=
  match fuel with
  | O => LFuel
  | S f =>
      match s with
      | EmptyString => LErr expecting_value s
      | String c r =>
          if Ascii.eqb c dquote then of_pres (pmap JStr (scanstring s r))
          else if Ascii.eqb c "{" then
            match depth with
            | O => LRaise (too_deep " while decoding a JSON object from a unicode string")
            | S d =>
                match skip_ws r with
                | String c1 r2 as r1 =>
                    if Ascii.eqb c1 "}" then LOk (JDict []) r2
                    else if Ascii.eqb c1 dquote
                    then lmap (fun pairs => JDict (py_dict pairs)) (object_items d f r2)
                    else LErr expecting_name r1
                | EmptyString => LErr expecting_name EmptyString
                end
            end
          else if Ascii.eqb c "[" then
            match depth with
            | O => LRaise (too_deep " while decoding a JSON array from a unicode string")
            | S d =>
                match skip_ws r with
                | String c1 r2 as r1 =>
                    if Ascii.eqb c1 "]" then LOk (JList []) r2
                    else lmap JList (array_items d f r1)
                | EmptyString => lmap JList (array_items d f EmptyString)
                end
            end
          else scan_literal s
      end
  end

with array_items (depth fuel : nat) (s : string) {struct fuel} : lres (list json) :=
  match fuel with
  | O => LFuel
  | S f =>
      match scan_once depth f s with
      | LOk v r =>
          match skip_ws r with
          | String c r2 as r1 =>
              if Ascii.eqb c "]" then LOk [v] r2
              else if Ascii.eqb c ","
              then lmap (cons v) (array_items depth f (skip_ws r2))
              else LErr expecting_comma r1
          | EmptyString => LErr expecting_comma EmptyString
          end
      | LErr m a => LErr m a
      | LRaise e => LRaise e
      | LFuel => LFuel
      end
  end

with object_items (depth fuel : nat) (s : string) {struct fuel}
  : lres (list (string * json)) :=
  match fuel with
  | O => LFuel
  | S f =>
      match scanstring (String dquote s) s with
      | POk key r =>
          match skip_ws r with
          | String c r2 as r1 =>
              if Ascii.eqb c ":" then
                match scan_once depth f (skip_ws r2) with
                | LOk v r4 =>
                    match skip_ws r4 with
                    | String c5 r6 as r5 =>
                        if Ascii.eqb c5 "}" then LOk [(key, v)] r6
                        else if Ascii.eqb c5 "," then
                          match skip_ws r6 with
                          | String c7 r8 as r7 =>
                              if Ascii.eqb c7 dquote
                              then lmap (cons (key, v)) (object_items depth f r8)
                              else LErr expecting_name r7
                          | EmptyString => LErr expecting_name EmptyString
                          end
                        else LErr expecting_comma r5
                    | EmptyString => LErr expecting_comma EmptyString
                    end
                | LErr m a => LErr m a
                | LRaise e => LRaise e
                | LFuel => LFuel
                end
              else LErr expecting_colon r1
          | EmptyString => LErr expecting_colon EmptyString
          end
      | PErr m a => LErr m a
      | PFuel => LFuel
      end
  end.

(** [json.loads(s)] for a [str] argument *)
Definition json_loads (s : string) : result json :=
  if startswith s bom
  then Raise (JSONDecodeError "Unexpected UTF-8 BOM (decode using utf-8-sig)" s 0)
  else
    match scan_once (decoder_depth lim) (fuel_for s) (skip_ws s) with
    | LOk obj r =>
        match skip_ws r with
        | EmptyString => Ok obj
        | String _ _ as r' => Raise (JSONDecodeError "Extra data" s (offset s r'))
        end
    | LErr m a => Raise (JSONDecodeError m s (offset s a))
    | LRaise e => Raise e
    | LFuel => Raise (too_deep EmptyString)
    end.

(** [extract_json_or_raise]: [except Exception] also catches the two
    exceptions of the limits. *)
Definition extract_json_or_raise (text : string) : result json :=
  match json_loads text with
  | Ok v => Ok v
  | Raise e =>
      let start := find text "{" in
      let end_ := rfind text "}" in
      if negb (start =? -1) && negb (end_ =? -1) && (end_ >? start) then
        let candidate := slice text start (end_ + 1) in
        json_loads candidate
      else
        Raise (ValueError ("Failed to parse JSON: " ++ str_of_exn e ++ nl
                             ++ "Response was:" ++ nl ++ text))
  end.

End Decoder.

End Limits.

(** * The vocabulary of the statements *)

Import Py Json App.

(** ** The response parser *)

(** The error raised when no brace pair is found carries the whole reply. *)
Definition parse_failure (e : exn) (text : string) : exn :=
  ValueError ("Failed to parse JSON: " ++ str_of_exn e ++ nl
                ++ "Response was:" ++ nl ++ text).

(** What may follow a value in a document: nothing, or a comma or a closing
    bracket or brace. *)
Definition delimited (rest : string) : bool :=
  match rest with
  | EmptyString => true
  | String c _ => Ascii.eqb c "," || Ascii.eqb c "]" || Ascii.eqb c "}"
  end.

(** A scanning outcome on [s] that is not a shortage of fuel and, when it is
    a value, leaves less text than [s]. *)
Definition consumes {A : Type} (s : string) (r : pres A) : Prop :=
  match r with
  | POk _ rest => (String.length rest < String.length s)%nat
  | PErr _ _ => True
  | PFuel => False
  end.

(** No string occurs twice in [l]. *)
Fixpoint distinct (l : list string) : bool :=
  match l with
  | [] => true
  | k :: r => negb (existsb (String.eqb k) r) && distinct r
  end.

(** The text of a float as the encoder writes it and the decoder reads it: a
    number of the decoder's grammar with a fraction or an exponent, or one
    of [Infinity] and [-Infinity].  [NaN] is left out: in Python it differs
    from itself, so no function returns a value equal to it. *)
Definition float_text (lit : string) : bool :=
  match scan_literal lit with
  | POk (JFloat l) EmptyString => String.eqb l lit && negb (String.eqb lit "NaN")
  | _ => false
  end.

(** The values of the JSON data model as Python holds them: no key twice in
    one object (as in any [dict]), and every float given by a text of it
    other than [NaN]. *)
Fixpoint json_representable (x : json) : bool :=
  match x with
  | JNull | JBool _ | JInt _ | JStr _ => true
  | JFloat lit => float_text lit
  | JList l => forallb json_representable l
  | JDict kvs =>
      distinct (map fst kvs)
      && forallb (fun kv => json_representable (snd kv)) kvs
  end.


(** The number of containers around the innermost value of [x], [x]
    included. *)
Fixpoint depth (x : json) : nat :=
  match x with
  | JNull | JBool _ | JInt _ | JFloat _ | JStr _ => 0%nat
  | JList l => S (fold_right (fun y m => Nat.max (depth y) m) 0%nat l)
  | JDict kvs => S (fold_right (fun kv m => Nat.max (depth (snd kv)) m) 0%nat kvs)
  end.



(** [extract_json_or_raise(json.dumps(x, ensure_ascii=False))] *)
Definition round_trip (floatstr : string -> string) (lim : Limits.limits) (x : json)
  : result json :=
  match Limits.json_dumps floatstr lim x with
  | Ok text => Limits.extract_json_or_raise lim text
  | Raise e => Raise e
  end.

(** The text the encoder writes between the braces of an object. *)
Definition members (kvs : list (string * json)) : string :=
  join ", " (map (fun kv => encode_basestring (fst kv) ++ ": "
                             ++ json_dumps (snd kv)) kvs).

(** The properties proved by induction on the value: the decoder reads back
    what the encoder writes, and the limits do not change that for a value
    within them. *)
Definition reads_back (x : json) : Prop :=
  json_representable x = true ->
  forall rest, delimited rest = true ->
  exists f, scan_once f (json_dumps x ++ rest) = POk x rest.


(** An outcome of the decoder with the limits and one of the decoder without:
    the first is an exception of the limits, or the two are the same. *)
Definition agrees {A : Type} (l : Limits.lres A) (p : pres A) : Prop :=
  (exists e, l = Limits.LRaise e) \/ l = Limits.of_pres p.





(** [n] lists, one inside the other. *)
Fixpoint nested (n : nat) : json :=
  match n with
  | O => JNull
  | S k => JList [nested k]
  end.

(** ** Runs *)

(** What a call of [agent.run] leaves in the world. *)
Definition asked (agent : Agent) (prompt : string) (w : world) : world :=
  {| log := EAgentRun agent prompt :: log w; gtm_results := gtm_results w |}.

(** The world after the events [evs] (the latest first), none of them a
    write to the session state. *)
Definition said (evs : list event) (w : world) : world :=
  {| log := (evs ++ log w)%list; gtm_results := gtm_results w |}.

(** Writes to the session state, agents run, failure notices in a list
    of events. *)
Definition is_write (ev : event) : bool :=
  match ev with ESessionWrite _ => true | _ => false end.

Definition no_write (evs : list event) : bool :=
  forallb (fun ev => negb (is_write ev)) evs.

Definition agents_run (evs : list event) : list Agent :=
  flat_map (fun ev => match ev with EAgentRun a _ => [a] | _ => [] end) evs.

(** The two checks [main] makes before it starts a run. *)
Definition inputs_valid (i : Inputs) : bool :=
  negb (is_empty (openai_key i) || is_empty (exa_key i))
  && negb (is_empty (target_desc i) || is_empty (offering_desc i)).

Definition no_failure (evs : list event) : bool :=
  forallb (fun ev => match ev with
                     | EStError _ | EStageMsg Error _ => false
                     | _ => true
                     end) evs.

Definition email_writer_ran (evs : list event) : bool :=
  existsb (fun a => String.eqb (session_id a) "gtm_outreach_email_writer")
    (agents_run evs).

(** The world in which the run calls each stage. *)
Definition before_companies (w : world) : world :=
  said [EStageMsg Info "1/4 Finding companies..."; EProgress 0] w.

Definition before_contacts (n1 : nat) (w1 : world) : world :=
  said [EStageMsg Info "2/4 Finding contacts (2–3 per company)...";
        EDetails ("Found " ++ repr_nat n1 ++ " companies"); EProgress 25] w1.

Definition before_research (n2 : nat) (w2 : world) : world :=
  said [EStageMsg Info "3/4 Researching insights (website + Reddit)...";
        EDetails ("Collected contacts for " ++ repr_nat n2 ++ " companies");
        EProgress 50] w2.

Definition before_emails (n3 : nat) (w3 : world) : world :=
  said [EStageMsg Info "4/4 Writing personalized emails...";
        EDetails ("Compiled research for " ++ repr_nat n3 ++ " companies");
        EProgress 75] w3.

Section Stages.

Variable agent_reply : list event -> Agent -> string -> result string.

(** The part the other three runners share. *)
Definition keyed_reply (agent : Agent) (prompt key : string) (w : world)
  : result json * world :=
  (match agent_reply (log w) agent prompt with
   | Ok resp =>
       match extract_json_or_raise resp with
       | Ok data => Value.get data key (JList [])
       | Raise e => Raise e
       end
   | Raise e => Raise e
   end,
   asked agent prompt w).

(** The four calls as [main] makes them. *)
Definition company_stage (i : Inputs) : M json :=
  run_company_finder agent_reply create_company_finder_agent
    (strip (target_desc i)) (strip (offering_desc i)) (num_companies i).

Definition contact_stage (i : Inputs) (cs : json) : M json :=
  run_contact_finder agent_reply create_contact_finder_agent cs
    (strip (target_desc i)) (strip (offering_desc i)).

Definition research_stage (cs : json) : M json :=
  run_research agent_reply create_research_agent cs.

Definition email_stage (i : Inputs) (ct rs : json) : M json :=
  run_email_writer agent_reply (create_email_writer_agent (email_style i)) ct rs
    (strip (offering_desc i))
    (or_else (strip (sender_name i)) "Sales Team")
    (or_else (strip (sender_company i)) "Our Company")
    (if is_empty (strip (calendar_link i)) then None
     else Some (strip (calendar_link i))).

(** A stage runner raises [e] in the run started from [w]: the stages
    before it returned, and the stage was not skipped. *)
Inductive runner_raises (i : Inputs) (w : world) (e : exn) : Prop :=
| company_finder_raises (w1 : world) :
    company_stage i (before_companies w) = (Raise e, w1) ->
    runner_raises i w e
| contact_finder_raises (cs : json) (n1 : nat) (w1 w2 : world) :
    company_stage i (before_companies w) = (Ok cs, w1) ->
    Value.len cs = Ok n1 ->
    Value.truthy cs = true ->
    contact_stage i cs (before_contacts n1 w1) = (Raise e, w2) ->
    runner_raises i w e
| research_raises (cs ct : json) (n1 n2 : nat) (w1 w2 w3 : world) :
    company_stage i (before_companies w) = (Ok cs, w1) ->
    Value.len cs = Ok n1 ->
    Value.truthy cs = true ->
    contact_stage i cs (before_contacts n1 w1) = (Ok ct, w2) ->
    Value.len ct = Ok n2 ->
    research_stage cs (before_research n2 w2) = (Raise e, w3) ->
    runner_raises i w e
| email_writer_raises (cs ct rs : json) (n1 n2 n3 : nat) (w1 w2 w3 w4 : world) :
    company_stage i (before_companies w) = (Ok cs, w1) ->
    Value.len cs = Ok n1 ->
    Value.truthy cs = true ->
    contact_stage i cs (before_contacts n1 w1) = (Ok ct, w2) ->
    Value.len ct = Ok n2 ->
    research_stage cs (before_research n2 w2) = (Ok rs, w3) ->
    Value.len rs = Ok n3 ->
    Value.truthy ct = true ->
    email_stage i ct rs (before_emails n3 w3) = (Raise e, w4) ->
    runner_raises i w e.

End Stages.

(** Agents that answer by role, whatever the prompt. *)
Definition scripted (company contact research email : result string)
  (_ : list event) (a : Agent) (_ : string) : result string :=
  if String.eqb (session_id a) "gtm_outreach_company_finder" then company
  else if String.eqb (session_id a) "gtm_outreach_contact_finder" then contact
  else if String.eqb (session_id a) "gtm_outreach_researcher" then research
  else email.

(** Sample inputs, replies and worlds. *)
Definition sample_inputs : Inputs :=
  {| openai_key := "sk-test"; exa_key := "exa-test";
     target_desc := "seed-stage fintech startups";
     offering_desc := "compliance automation SaaS";
     sender_name := "Ada"; sender_company := "Acme";
     calendar_link := EmptyString; num_companies := 3;
     email_style := "Casual" |}.

Definition one_company : string :=
  "{" ++ dq ++ "companies" ++ dq ++ ": [{" ++ dq ++ "name" ++ dq ++ ": "
      ++ dq ++ "Finco" ++ dq ++ "}]}".

Definition five_companies : string :=
  "{" ++ dq ++ "companies" ++ dq ++ ": [1, 2, 3, 4, 5]}".

Definition sample_result : PipelineResult :=
  {| companies := JList [JStr "Oldco"]; contacts := JList [JStr "c"];
     research := JList [JStr "r"]; emails := JList [JStr "e"] |}.

Definition fresh_world : world := {| log := []; gtm_results := None |}.
Definition world_with_result : world :=
  {| log := []; gtm_results := Some sample_result |}.

Definition empty_result : PipelineResult :=
  {| companies := JList []; contacts := JList [];
     research := JList []; emails := JList [] |}.

Definition completed_marker : event := EStageMsg Success "Completed".
Definition failed_marker : event := EStageMsg Error "Pipeline failed".

(** The enumeration of email styles as the specification gives it, and the
    instruction that goes with each. *)
Inductive style : Type := Professional | Casual | Cold | Consultative.

Definition style_of_key (style_key : string) : option style :=
  if String.eqb style_key "Professional" then Some Professional
  else if String.eqb style_key "Casual" then Some Casual
  else if String.eqb style_key "Cold" then Some Cold
  else if String.eqb style_key "Consultative" then Some Consultative
  else None.

Definition style_instruction (s : style) : string :=
  match s with
  | Professional => "Style: Professional. Clear, respectful, and businesslike. Short paragraphs; no slang."
  | Casual => "Style: Casual. Friendly, approachable, first-name basis. No slang or emojis; keep it human."
  | Cold => "Style: Cold email. Strong hook in opening 2 lines, tight value proposition, minimal fluff, strong CTA."
  | Consultative => "Style: Consultative. Insight-led, frames observed problems and tailored solution hypotheses; soft CTA."
  end.

(** ** Further vocabulary *)

Definition is_dict (x : json) : bool :=
  match x with JDict _ => true | _ => false end.

(** The text of the first validation error, and of the second. *)
Definition keys_missing : string := "Please provide API keys in the sidebar".
Definition inputs_missing : string :=
  "Please fill in target companies and offering".

(** More sample inputs and replies. *)
Definition no_key_inputs : Inputs :=
  {| openai_key := "sk-test"; exa_key := EmptyString;
     target_desc := "seed-stage fintech startups";
     offering_desc := "compliance automation SaaS";
     sender_name := "Ada"; sender_company := "Acme";
     calendar_link := EmptyString; num_companies := 3;
     email_style := "Casual" |}.


Definition in_prose : string :=
  "here you go: {" ++ dq ++ "companies" ++ dq ++ ": []} thanks".

(** * Properties *)

(** ** Facts about the string operations *)

Section StringFacts.

Lemma prefix_empty (s : string) : String.prefix EmptyString s = true.
Proof. now destruct s. Qed.

Lemma prefix_cons (c c' : ascii) (p s : string) :
  String.prefix (String c p) (String c' s) = Ascii.eqb c c' && String.prefix p s.
Proof.
  simpl. destruct (ascii_dec c c') as [->|n].
  - now rewrite Ascii.eqb_refl.
  - apply Ascii.eqb_neq in n. now rewrite n.
Qed.

Lemma prefix_refl (s : string) : String.prefix s s = true.
Proof.
  induction s as [|c s IH]; [reflexivity|].
  now rewrite prefix_cons, Ascii.eqb_refl.
Qed.

Lemma prefix1 (c : ascii) (s : string) :
  String.prefix (String c EmptyString) s =
  match s with String c' _ => Ascii.eqb c c' | EmptyString => false end.
Proof.
  destruct s as [|c' r]; [reflexivity|].
  now rewrite prefix_cons, prefix_empty, andb_true_r.
Qed.

Lemma length_append (a b : string) :
  String.length (a ++ b) = (String.length a + String.length b)%nat.
Proof. induction a; simpl; congruence. Qed.

Lemma append_assoc (a b c : string) : (a ++ b) ++ c = a ++ b ++ c.
Proof. induction a; simpl; congruence. Qed.

Lemma append_empty_r (a : string) : a ++ EmptyString = a.
Proof. induction a; simpl; congruence. Qed.

Lemma drop_append (a b : string) : drop (String.length a) (a ++ b) = b.
Proof. induction a; simpl; [now destruct b | assumption]. Qed.

Lemma take_append (a b : string) : take (String.length a) (a ++ b) = a.
Proof. induction a; simpl; [now destruct b | congruence]. Qed.

Lemma contains_append_r (a b : string) : contains (a ++ b) b = true.
Proof.
  induction a as [|c a IH]; simpl.
  - destruct b as [|c b]; [reflexivity|].
    cbn [append contains]. now rewrite prefix_refl.
  - rewrite IH. apply orb_true_r.
Qed.

Variable c : ascii.
Let sub : string := String c EmptyString.

Lemma contains1_cons (c' : ascii) (s : string) :
  contains (String c' s) sub = Ascii.eqb c c' || contains s sub.
Proof. unfold sub. cbn [contains]. now rewrite prefix1. Qed.

Lemma find_from_first (pre rest : string) (i : Z) :
  contains pre sub = false ->
  find_from i (pre ++ String c rest) sub = i + Z.of_nat (String.length pre).
Proof.
  revert i. induction pre as [|c' pre IH]; intros i H.
  - cbn [append find_from]. unfold sub. rewrite prefix1, Ascii.eqb_refl.
    simpl. lia.
  - rewrite contains1_cons in H. apply orb_false_iff in H as [Hc Hp].
    cbn [append find_from]. unfold sub at 1. rewrite prefix1, Hc.
    rewrite IH by assumption. cbn [String.length]. lia.
Qed.

Lemma rfind_from_absent (s : string) (i : Z) :
  contains s sub = false -> rfind_from i s sub = -1.
Proof.
  revert i. induction s as [|c' s IH]; intros i H.
  - reflexivity.
  - rewrite contains1_cons in H. apply orb_false_iff in H as [Hc Hp].
    cbn [rfind_from]. rewrite IH by assumption. unfold sub at 1.
    rewrite prefix1, Hc. reflexivity.
Qed.

Lemma rfind_from_last (x post : string) (i : Z) :
  0 <= i ->
  contains post sub = false ->
  rfind_from i (x ++ String c post) sub = i + Z.of_nat (String.length x).
Proof.
  revert i. induction x as [|c' x IH]; intros i Hi H.
  - cbn [append rfind_from]. rewrite rfind_from_absent by assumption.
    unfold sub. rewrite prefix1, Ascii.eqb_refl. simpl. lia.
  - cbn [append rfind_from]. rewrite IH by (assumption || lia).
    cbn [String.length].
    destruct (Z.eqb_spec (i + 1 + Z.of_nat (String.length x)) (-1)); lia.
Qed.

End StringFacts.

Lemma slice_middle (pre cand post : string) :
  slice (pre ++ cand ++ post) (Z.of_nat (String.length pre))
        (Z.of_nat (String.length pre) + Z.of_nat (String.length cand)) = cand.
Proof.
  unfold slice, adjust_index. rewrite !length_append.
  set (p := String.length pre). set (k := String.length cand).
  set (q := String.length post).
  destruct (Z.ltb_spec (Z.of_nat p) 0); [lia|].
  destruct (Z.ltb_spec (Z.of_nat p + Z.of_nat k) 0); [lia|].
  replace (Z.to_nat (Z.min (Z.of_nat (p + (k + q))) (Z.max 0 (Z.of_nat p))))
    with p by lia.
  replace (Z.to_nat (Z.min (Z.of_nat (p + (k + q)))
                       (Z.max 0 (Z.of_nat p + Z.of_nat k))))
    with (p + k)%nat by lia.
  replace (p + k - p)%nat with k by lia.
  subst p k. rewrite drop_append. apply take_append.
Qed.

(** ** The response parser *)

Lemma parse_failure_includes_text (e : exn) (text : string) :
  contains (str_of_exn (parse_failure e text)) text = true.
Proof.
  unfold parse_failure. cbn [str_of_exn].
  rewrite <- !append_assoc. apply contains_append_r.
Qed.

(** Without a [{] before a [}], a reply that is not JSON is reported by a
    [ValueError] that quotes it. *)
Lemma extract_no_brace_pair (text : string) (e : exn) :
  json_loads text = Raise e ->
  find text "{" = -1 \/ rfind text "}" = -1 \/ rfind text "}" <= find text "{" ->
  extract_json_or_raise text = Raise (parse_failure e text).
Proof.
  intros Hl H. unfold extract_json_or_raise. rewrite Hl.
  replace (negb (find text "{" =? -1) && negb (rfind text "}" =? -1)
           && (rfind text "}" >? find text "{")) with false; [reflexivity|].
  symmetry. rewrite !andb_false_iff, !negb_false_iff, !Z.eqb_eq.
  destruct H as [H|[H|H]]; auto.
  right. rewrite Z.gtb_ltb. apply Z.ltb_ge. assumption.
Qed.

(** C7.  When the reply as a whole is not JSON but has a first [{] before a
    last [}], the parser reads the text from that [{] to that [}], both
    included. *)
Theorem extract_recovers_json_in_prose (pre mid post : string) (e : exn) :
  contains pre "{" = false ->
  contains post "}" = false ->
  json_loads (pre ++ "{" ++ mid ++ "}" ++ post) = Raise e ->
  extract_json_or_raise (pre ++ "{" ++ mid ++ "}" ++ post)
  = json_loads ("{" ++ mid ++ "}").
Proof.
  intros Hpre Hpost Hl. unfold extract_json_or_raise. rewrite Hl.
  assert (Hs : find (pre ++ "{" ++ mid ++ "}" ++ post) "{"
               = Z.of_nat (String.length pre)).
  { unfold find. cbn [append]. rewrite find_from_first by assumption. lia. }
  assert (He : rfind (pre ++ "{" ++ mid ++ "}" ++ post) "}"
               = Z.of_nat (String.length pre) + Z.of_nat (String.length mid) + 1).
  { unfold rfind.
    replace (pre ++ "{" ++ mid ++ "}" ++ post)
      with ((pre ++ "{" ++ mid) ++ String "}" post)
      by (now rewrite !append_assoc).
    rewrite rfind_from_last by (assumption || lia).
    rewrite length_append. cbn [append String.length]. lia. }
  rewrite Hs, He.
  destruct (Z.eqb_spec (Z.of_nat (String.length pre)) (-1)); [lia|].
  destruct (Z.eqb_spec (Z.of_nat (String.length pre)
                        + Z.of_nat (String.length mid) + 1) (-1)); [lia|].
  replace (_ >? _) with true by (symmetry; rewrite Z.gtb_ltb; apply Z.ltb_lt; lia).
  cbn [negb andb]. f_equal.
  replace (pre ++ "{" ++ mid ++ "}" ++ post)
    with (pre ++ ("{" ++ mid ++ "}") ++ post)
    by (now rewrite !append_assoc).
  replace (Z.of_nat (String.length pre) + Z.of_nat (String.length mid) + 1 + 1)
    with (Z.of_nat (String.length pre)
          + Z.of_nat (String.length ("{" ++ mid ++ "}"))).
  - apply slice_middle.
  - cbn [append String.length]. rewrite length_append. cbn [String.length]. lia.
Qed.

(** The reply of the example in the specification yields the object with
    the one key [companies] and an empty list. *)
Lemma extract_recovers_json_in_prose_example :
  extract_json_or_raise ("here you go: {" ++ dq ++ "companies" ++ dq ++ ": []} thanks")
  = Ok (JDict [("companies", JList [])]).
Proof.
  exact (extract_recovers_json_in_prose "here you go: "
           (dq ++ "companies" ++ dq ++ ": []") " thanks"
           (JSONDecodeError expecting_value
              ("here you go: {" ++ dq ++ "companies" ++ dq ++ ": []} thanks") 0)
           eq_refl eq_refl eq_refl).
Defined.

(** C10.  A reply that is JSON as a whole is returned as parsed, whatever
    the type of the value. *)
Theorem extract_returns_any_json_value (text : string) (v : json) :
  json_loads text = Ok v -> extract_json_or_raise text = Ok v.
Proof. intros H. unfold extract_json_or_raise. now rewrite H. Qed.

(** An array and a string come back as they are: nothing checks for an
    object. *)
Lemma extract_returns_any_json_value_examples :
  extract_json_or_raise "[1, 2]" = Ok (JList [JInt 1; JInt 2])
  /\ extract_json_or_raise (dq ++ "hi" ++ dq) = Ok (JStr "hi").
Proof.
  split.
  - exact (extract_returns_any_json_value "[1, 2]" (JList [JInt 1; JInt 2]) eq_refl).
  - exact (extract_returns_any_json_value (dq ++ "hi" ++ dq) (JStr "hi") eq_refl).
Defined.

(** C1.  On [oops {not json} end] neither attempt succeeds, and the error
    that leaves the function is the decoder's error about the block between
    the braces: its text, and the document it records, do not contain the
    reply. *)
Theorem extract_block_error_omits_reply :
  extract_json_or_raise "oops {not json} end"
  = Raise (JSONDecodeError expecting_name "{not json}" 1)
  /\ str_of_exn (JSONDecodeError expecting_name "{not json}" 1)
     = "Expecting property name enclosed in double quotes: line 1 column 2 (char 1)"
  /\ contains (str_of_exn (JSONDecodeError expecting_name "{not json}" 1))
       "oops {not json} end" = false
  /\ contains "{not json}" "oops {not json} end" = false.
Proof. repeat split; vm_compute; reflexivity. Qed.

(** ** Integers *)

Ltac digit_code :=
  match goal with
  | |- context [Z.of_nat (nat_of_ascii ?c)] =>
      let v := eval vm_compute in (Z.of_nat (nat_of_ascii c)) in
      change (Z.of_nat (nat_of_ascii c)) with v
  end.

Lemma delimited_not_digit (rest : string) :
  delimited rest = true -> digits rest = (EmptyString, rest).
Proof.
  destruct rest as [|c r]; [reflexivity|]. cbn [delimited digits].
  intros H. apply orb_true_iff in H as [H|H];
    [apply orb_true_iff in H as [H|H]|];
    apply Ascii.eqb_eq in H; subst c; reflexivity.
Qed.

Lemma delimited_no_frac (rest : string) :
  delimited rest = true -> match_frac rest = (EmptyString, rest).
Proof.
  destruct rest as [|c r]; [reflexivity|]. cbn [delimited].
  intros H. apply orb_true_iff in H as [H|H];
    [apply orb_true_iff in H as [H|H]|];
    apply Ascii.eqb_eq in H; subst c; destruct r; reflexivity.
Qed.

Lemma delimited_no_exp (rest : string) :
  delimited rest = true -> match_exp rest = (EmptyString, rest).
Proof.
  destruct rest as [|c r]; [reflexivity|]. cbn [delimited].
  intros H. apply orb_true_iff in H as [H|H];
    [apply orb_true_iff in H as [H|H]|];
    apply Ascii.eqb_eq in H; subst c; reflexivity.
Qed.

Lemma digits_string_of_uint (d : Decimal.uint) (rest : string) :
  digits rest = (EmptyString, rest) ->
  digits (NilEmpty.string_of_uint d ++ rest) = (NilEmpty.string_of_uint d, rest).
Proof.
  intros Hr. induction d; cbn [NilEmpty.string_of_uint append];
    [assumption | cbn [digits]; rewrite IHd; reflexivity ..].
Qed.

Lemma int_of_digits_acc_pos (d : Decimal.uint) (acc : positive) :
  int_of_digits_acc (Z.pos acc) (NilEmpty.string_of_uint d)
  = Z.pos (Pos.of_uint_acc d acc).
Proof.
  revert acc. induction d; intros acc;
    cbn [NilEmpty.string_of_uint int_of_digits_acc Pos.of_uint_acc];
    [reflexivity | rewrite <- IHd; f_equal; digit_code; lia ..].
Qed.

Lemma int_of_digits_string_of_uint (d : Decimal.uint) :
  int_of_digits (NilEmpty.string_of_uint d) = Z.of_uint d.
Proof.
  unfold int_of_digits, Z.of_uint.
  induction d; cbn [NilEmpty.string_of_uint int_of_digits_acc Pos.of_uint];
    [reflexivity | assumption | apply int_of_digits_acc_pos ..].
Qed.

(** The decimal numeral of a positive number starts with a digit other
    than zero. *)
Lemma to_uint_head (p : positive) :
  match Pos.to_uint p with
  | Decimal.Nil | Decimal.D0 _ => False
  | _ => True
  end.
Proof.
  pose proof (DecimalPos.Unsigned.to_of (Pos.to_uint p)) as H.
  rewrite DecimalPos.Unsigned.of_to in H. cbn [N.to_uint] in H.
  pose proof (Unsigned.to_uint_nonnil p) as Hn.
  pose proof (Unsigned.to_uint_nonzero p) as Hz.
  destruct (Pos.to_uint p) as [|d| | | | | | | | | ]; try exact I.
  - congruence.
  - rewrite unorm_D0 in H. unfold Decimal.unorm in H.
    destruct (Decimal.nzhead d) eqn:E.
    all: try discriminate.
    + congruence.
    + exfalso. exact (nzhead_nonzero d _ E).
Qed.

Lemma match_unsigned_to_uint (p : positive) (rest : string) :
  digits rest = (EmptyString, rest) ->
  match_unsigned (NilEmpty.string_of_uint (Pos.to_uint p) ++ rest)
  = Some (NilEmpty.string_of_uint (Pos.to_uint p), rest).
Proof.
  intros Hr. pose proof (to_uint_head p) as H.
  destruct (Pos.to_uint p) as [|d|d|d|d|d|d|d|d|d|d]; try contradiction;
    cbn [NilEmpty.string_of_uint append]; unfold match_unsigned;
    rewrite (digits_string_of_uint d rest Hr); reflexivity.
Qed.

Lemma string_of_uint_to_uint (p : positive) :
  NilZero.string_of_uint (Pos.to_uint p) = NilEmpty.string_of_uint (Pos.to_uint p).
Proof. pose proof (Unsigned.to_uint_nonnil p). now destruct (Pos.to_uint p). Qed.

Lemma to_uint_not_minus (p : positive) (rest : string) :
  match NilEmpty.string_of_uint (Pos.to_uint p) ++ rest with
  | String c _ => Ascii.eqb c "-" = false
  | EmptyString => False
  end.
Proof.
  pose proof (to_uint_head p) as H.
  destruct (Pos.to_uint p); try contradiction; reflexivity.
Qed.

Lemma scan_number_repr (z : Z) (rest : string) :
  delimited rest = true ->
  scan_number (repr_Z z ++ rest) = Some (JInt z, rest).
Proof.
  intros Hd.
  pose proof (delimited_not_digit rest Hd) as Hdig.
  unfold repr_Z, scan_number, match_integer.
  destruct z as [|p|p]; cbn [Z.to_int NilZero.string_of_int].
  - cbn. now rewrite (delimited_no_frac rest Hd), (delimited_no_exp rest Hd).
  - rewrite string_of_uint_to_uint.
    pose proof (to_uint_not_minus p rest) as Hm.
    pose proof (match_unsigned_to_uint p rest Hdig) as Hu.
    destruct (NilEmpty.string_of_uint (Pos.to_uint p) ++ rest) as [|c r] eqn:E;
      [contradiction|].
    rewrite Hm, Hu, (delimited_no_frac rest Hd), (delimited_no_exp rest Hd).
    cbn [is_empty andb]. rewrite int_of_digits_string_of_uint.
    unfold Z.of_uint. now rewrite DecimalPos.Unsigned.of_to.
  - rewrite string_of_uint_to_uint. cbn [append Ascii.eqb Bool.eqb].
    rewrite (match_unsigned_to_uint p rest Hdig).
    rewrite (delimited_no_frac rest Hd), (delimited_no_exp rest Hd).
    cbn [is_empty andb]. rewrite int_of_digits_string_of_uint.
    unfold Z.of_uint. now rewrite DecimalPos.Unsigned.of_to.
Qed.

(** ** Strings *)

(** A character below 32 has its three high bits clear. *)
Lemma control_char (c : ascii) :
  (nat_of_ascii c <? 32)%nat = true ->
  exists b0 b1 b2 b3 b4, c = Ascii b0 b1 b2 b3 b4 false false false.
Proof.
  destruct c as [b0 b1 b2 b3 b4 b5 b6 b7]. intros H.
  destruct b5, b6, b7;
    try (exfalso; destruct b0, b1, b2, b3, b4; vm_compute in H; discriminate).
  now exists b0, b1, b2, b3, b4.
Qed.

(** Reading back one escaped character. *)
Lemma scanstring_escape_char (begin : string) (c : ascii) (r : string) :
  scanstring begin (escape_char c ++ r) = pcons c (scanstring begin r).
Proof.
  unfold escape_char.
  destruct (Ascii.eqb_spec c dquote) as [->|Hq]; [reflexivity|].
  destruct (Ascii.eqb_spec c backslash) as [->|Hb]; [reflexivity|].
  destruct (Ascii.eqb_spec c "010") as [->|H1]; [reflexivity|].
  destruct (Ascii.eqb_spec c "013") as [->|H2]; [reflexivity|].
  destruct (Ascii.eqb_spec c "009") as [->|H3]; [reflexivity|].
  destruct (Ascii.eqb_spec c "012") as [->|H4]; [reflexivity|].
  destruct (Ascii.eqb_spec c "008") as [->|H5]; [reflexivity|].
  destruct (nat_of_ascii c <? 32)%nat eqn:Hc.
  - destruct (control_char c Hc) as (b0 & b1 & b2 & b3 & b4 & ->).
    destruct b0, b1, b2, b3, b4; try congruence;
      cbn [append]; unfold pcons, papp; cbn; destruct (scanstring begin r); reflexivity.
  - cbn [append scanstring].
    apply Ascii.eqb_neq in Hq, Hb. now rewrite Hq, Hb, Hc.
Qed.

Lemma scanstring_escape (begin s rest : string) :
  scanstring begin (escape s ++ String dquote rest) = POk s rest.
Proof.
  induction s as [|c s IH]; [reflexivity|].
  cbn [escape]. rewrite append_assoc, scanstring_escape_char, IH. reflexivity.
Qed.

(** ** The decoder consumes its input *)

Ltac break_hyp H :=
  repeat match type of H with
         | context [match ?x with _ => _ end] => destruct x eqn:?; try discriminate H
         end.

Lemma skip_ws_length (s : string) :
  (String.length (skip_ws s) <= String.length s)%nat.
Proof.
  induction s as [|c s IH]; cbn [skip_ws]; [lia|].
  destruct (is_ws c); cbn [String.length]; lia.
Qed.

Lemma drop_length (n : nat) (s : string) :
  String.length (drop n s) = (String.length s - n)%nat.
Proof.
  revert s. induction n as [|n IH]; intros [|c s]; cbn [drop String.length];
    try lia. apply IH.
Qed.

Lemma prefix_length (p s : string) :
  String.prefix p s = true -> (String.length p <= String.length s)%nat.
Proof.
  revert s. induction p as [|c p IH]; intros s H; [cbn; lia|].
  destruct s as [|c' s]; [discriminate|].
  rewrite prefix_cons in H. apply andb_true_iff in H as [_ H].
  apply IH in H. cbn [String.length]. lia.
Qed.

Lemma digits_length (s ds rest : string) :
  digits s = (ds, rest) -> (String.length rest <= String.length s)%nat.
Proof.
  revert ds rest. induction s as [|c s IH]; intros ds rest H; cbn [digits] in H.
  - injection H as <- <-. lia.
  - destruct (is_digit c).
    + destruct (digits s) as [ds' rest'] eqn:E. injection H as <- <-.
      specialize (IH _ _ eq_refl). cbn [String.length]. lia.
    + injection H as <- <-. lia.
Qed.

Lemma match_unsigned_shorter (s ip rest : string) :
  match_unsigned s = Some (ip, rest) ->
  (String.length rest < String.length s)%nat.
Proof.
  unfold match_unsigned. intros H. break_hyp H; injection H as <- <-; subst;
    repeat match goal with
           | E : digits _ = _ |- _ => apply digits_length in E
           end; cbn [String.length] in *; lia.
Qed.

Lemma match_frac_length (s f rest : string) :
  match_frac s = (f, rest) -> (String.length rest <= String.length s)%nat.
Proof.
  unfold match_frac. intros H. break_hyp H; injection H as <- <-; subst;
    repeat match goal with
           | E : digits _ = _ |- _ => apply digits_length in E
           end; cbn [String.length] in *; lia.
Qed.

Lemma match_exp_length (s e rest : string) :
  match_exp s = (e, rest) -> (String.length rest <= String.length s)%nat.
Proof.
  unfold match_exp. destruct s as [|c r]; [intros H; injection H as <- <-; lia|].
  destruct (Ascii.eqb c "e" || Ascii.eqb c "E");
    [|intros H; injection H as <- <-; lia].
  match goal with
  | |- (let (_, _) := ?p in _) = _ -> _ =>
      assert (Hp : (String.length (snd p) <= String.length r)%nat)
        by (destruct r as [|g r']; cbn [snd String.length]; [lia|];
            destruct (Ascii.eqb g "+" || Ascii.eqb g "-");
            cbn [snd String.length]; lia);
      destruct p as [sign r1]
  end.
  cbn [snd] in Hp. destruct r1 as [|d r2]; [intros H; injection H as <- <-; lia|].
  destruct (is_digit d); [|intros H; injection H as <- <-; lia].
  destruct (digits r2) as [ds r3] eqn:E. apply digits_length in E.
  intros H; injection H as <- <-. cbn [String.length] in *. lia.
Qed.

Lemma scan_number_shorter (s : string) (v : json) (rest : string) :
  scan_number s = Some (v, rest) ->
  (String.length rest < String.length s)%nat.
Proof.
  unfold scan_number, match_integer. intros H.
  destruct s as [|c s']; [discriminate|].
  destruct (Ascii.eqb c "-");
    (destruct (match_unsigned _) as [[ip r0]|] eqn:Eu; [|discriminate]);
    apply match_unsigned_shorter in Eu;
    destruct (match_frac r0) as [fr r1] eqn:Ef; apply match_frac_length in Ef;
    destruct (match_exp r1) as [ex r2] eqn:Ee; apply match_exp_length in Ee;
    destruct (is_empty fr && is_empty ex); injection H as <- <-;
    cbn [String.length] in *; lia.
Qed.

Lemma consumes_pmap {A B : Type} (f : A -> B) (s s' : string) (x : pres A) :
  consumes s' x ->
  (String.length s' <= String.length s)%nat ->
  consumes s (pmap f x).
Proof. destruct x; cbn [consumes pmap]; intros; lia || assumption. Qed.

Lemma scanstring_consumes (n : nat) (begin s : string) :
  (String.length s <= n)%nat -> consumes s (scanstring begin s).
Proof.
  revert s. induction n as [|n IH]; intros s Hn;
    (destruct s as [|c s']; [exact I|]); [cbn in Hn; lia|].
  cbn [String.length] in Hn.
  assert (IH' : forall t, (String.length t <= String.length s')%nat ->
                          consumes (String c s') (scanstring begin t)).
  { intros t Ht. specialize (IH t ltac:(lia)).
    destruct (scanstring begin t); cbn [consumes String.length] in *; lia || assumption. }
  cbn [scanstring]. unfold pcons, papp.
  repeat match goal with
         | |- consumes _ (pmap _ (scanstring _ ?t)) =>
             eapply consumes_pmap;
             [apply IH'; cbn [String.length]; lia | cbn [String.length]; lia]
         | |- consumes _ (POk _ _) => cbn [consumes String.length]; lia
         | |- consumes _ (PErr _ _) => exact I
         | |- consumes _ (match ?x with _ => _ end) => destruct x eqn:?
         | |- consumes _ (if ?x then _ else _) => destruct x eqn:?
         end.
Qed.

Lemma scan_literal_consumes (s : string) : consumes s (scan_literal s).
Proof.
  unfold scan_literal, startswith.
  repeat match goal with
         | |- consumes _ (if String.prefix ?p ?t then _ else _) =>
             let Hp := fresh "Hp" in
             destruct (String.prefix p t) eqn:Hp;
             [apply prefix_length in Hp; cbn [consumes];
              rewrite drop_length; cbn [String.length] in *; lia|]
         end.
  destruct (scan_number s) as [[v rest]|] eqn:En.
  { apply scan_number_shorter in En. exact En. }
  repeat match goal with
         | |- consumes _ (if String.prefix ?p ?t then _ else _) =>
             let Hp := fresh "Hp" in
             destruct (String.prefix p t) eqn:Hp;
             [apply prefix_length in Hp; cbn [consumes];
              rewrite drop_length; cbn [String.length] in *; lia|]
         end.
  exact I.
Qed.

Ltac lens :=
  repeat match goal with
         | E : skip_ws ?a = _ |- _ =>
             let H := fresh "Hlen" in
             pose proof (skip_ws_length a) as H; rewrite E in H; clear E
         end;
  cbn [String.length] in *; try lia.

Lemma scan_fuel_enough (fuel : nat) :
  (forall s, (2 * String.length s + 1 <= fuel)%nat -> consumes s (scan_once fuel s))
  /\ (forall s, (2 * String.length s + 2 <= fuel)%nat ->
                consumes s (array_items fuel s))
  /\ (forall s, (2 * String.length s + 1 <= fuel)%nat ->
                consumes s (object_items fuel s)).
Proof.
  induction fuel as [|f (IHs & IHa & IHo)]; [repeat split; intros; lia|].
  repeat split; intros s Hf.
  - cbn [scan_once]. destruct s as [|c r]; [exact I|].
    destruct (Ascii.eqb c dquote).
    { apply consumes_pmap with (s' := r);
        [apply scanstring_consumes with (n := String.length r); lia
        | cbn [String.length]; lia]. }
    destruct (Ascii.eqb c "{").
    { destruct (skip_ws r) as [|c1 r2] eqn:E; [exact I|].
      destruct (Ascii.eqb c1 "}"); [cbn [consumes]; lens|].
      destruct (Ascii.eqb c1 dquote); [|exact I].
      apply consumes_pmap with (s' := r2); [apply IHo|]; lens. }
    destruct (Ascii.eqb c "[").
    { destruct (skip_ws r) as [|c1 r2] eqn:E.
      - apply consumes_pmap with (s' := EmptyString); [apply IHa|]; lens.
      - destruct (Ascii.eqb c1 "]"); [cbn [consumes]; lens|].
        pose proof (skip_ws_length r) as Hl. rewrite E in Hl.
        apply consumes_pmap with (s' := String c1 r2); [apply IHa|];
          cbn [String.length] in *; lia. }
    apply scan_literal_consumes.
  - cbn [array_items]. specialize (IHs s ltac:(lia)).
    destruct (scan_once f s) as [v r| |]; cbn [consumes] in IHs; [|exact I|contradiction].
    destruct (skip_ws r) as [|c r2] eqn:E; [exact I|].
    destruct (Ascii.eqb c "]"); [cbn [consumes]; lens|].
    destruct (Ascii.eqb c ","); [|exact I].
    pose proof (skip_ws_length r2).
    apply consumes_pmap with (s' := skip_ws r2); [apply IHa|]; lens.
  - cbn [object_items].
    pose proof (scanstring_consumes (String.length s) (String dquote s) s
                  (Nat.le_refl _)) as Hk.
    destruct (scanstring (String dquote s) s) as [key r| |];
      cbn [consumes] in Hk; [|exact I|contradiction].
    destruct (skip_ws r) as [|c r2] eqn:E; [exact I|].
    destruct (Ascii.eqb c ":"); [|exact I].
    pose proof (skip_ws_length r2) as H2.
    pose proof (skip_ws_length r) as H1. rewrite E in H1. clear E.
    cbn [String.length] in H1.
    specialize (IHs (skip_ws r2) ltac:(lia)).
    destruct (scan_once f (skip_ws r2)) as [v r4| |]; cbn [consumes] in IHs;
      [|exact I|contradiction].
    destruct (skip_ws r4) as [|c5 r6] eqn:E4; [exact I|].
    destruct (Ascii.eqb c5 "}"); [cbn [consumes]; lens|].
    destruct (Ascii.eqb c5 ","); [|exact I].
    destruct (skip_ws r6) as [|c7 r8] eqn:E6; [exact I|].
    destruct (Ascii.eqb c7 dquote); [|exact I].
    apply consumes_pmap with (s' := r8); [apply IHo|]; lens.
Qed.

(** ** More fuel does not change an outcome *)

Lemma pmap_fuel_step {A B : Type} (g : A -> B) (x y : pres A) :
  (x <> PFuel -> y = x) -> pmap g x <> PFuel -> pmap g y = pmap g x.
Proof.
  intros Hxy H. rewrite Hxy; [reflexivity|].
  intros ->. apply H. reflexivity.
Qed.

Lemma scan_fuel_step (f : nat) :
  (forall s, scan_once f s <> PFuel -> scan_once (S f) s = scan_once f s)
  /\ (forall s, array_items f s <> PFuel -> array_items (S f) s = array_items f s)
  /\ (forall s, object_items f s <> PFuel ->
                object_items (S f) s = object_items f s).
Proof.
  induction f as [|f (IHs & IHa & IHo)];
    [repeat split; intros s H; exfalso; apply H; reflexivity|].
  repeat split; intros s.
  - cbn [scan_once].
    destruct s as [|c r]; [reflexivity|].
    destruct (Ascii.eqb c dquote); [reflexivity|].
    destruct (Ascii.eqb c "{").
    { destruct (skip_ws r) as [|c1 r2]; [reflexivity|].
      destruct (Ascii.eqb c1 "}"); [reflexivity|].
      destruct (Ascii.eqb c1 dquote); [|reflexivity].
      apply pmap_fuel_step, IHo. }
    destruct (Ascii.eqb c "[").
    { destruct (skip_ws r) as [|c1 r2]; [apply pmap_fuel_step, IHa|].
      destruct (Ascii.eqb c1 "]"); [reflexivity|].
      apply pmap_fuel_step, IHa. }
    reflexivity.
  - cbn [array_items]. intros H.
    destruct (scan_once f s) as [v r|m a|] eqn:E;
      [|rewrite IHs, E by (rewrite E; discriminate); reflexivity
       |exfalso; apply H; reflexivity].
    rewrite IHs, E by (rewrite E; discriminate).
    destruct (skip_ws r) as [|c r2]; [reflexivity|].
    destruct (Ascii.eqb c "]"); [reflexivity|].
    destruct (Ascii.eqb c ","); [|reflexivity].
    revert H. apply pmap_fuel_step, IHa.
  - cbn [object_items]. intros H.
    destruct (scanstring (String dquote s) s) as [key r|m a|]; [|reflexivity..].
    destruct (skip_ws r) as [|c r2]; [reflexivity|].
    destruct (Ascii.eqb c ":"); [|reflexivity].
    destruct (scan_once f (skip_ws r2)) as [v r4|m a|] eqn:E;
      [|rewrite IHs, E by (rewrite E; discriminate); reflexivity
       |exfalso; apply H; reflexivity].
    rewrite IHs, E by (rewrite E; discriminate).
    destruct (skip_ws r4) as [|c5 r6]; [reflexivity|].
    destruct (Ascii.eqb c5 "}"); [reflexivity|].
    destruct (Ascii.eqb c5 ","); [|reflexivity].
    destruct (skip_ws r6) as [|c7 r8]; [reflexivity|].
    destruct (Ascii.eqb c7 dquote); [|reflexivity].
    revert H. apply pmap_fuel_step, IHo.
Qed.

Lemma scan_once_more_fuel (f f' : nat) (s : string) :
  (f <= f')%nat -> scan_once f s <> PFuel -> scan_once f' s = scan_once f s.
Proof.
  induction 1 as [|f' Hle IH]; [reflexivity|]. intros H.
  rewrite <- (IH H). apply (proj1 (scan_fuel_step f')). rewrite (IH H). exact H.
Qed.

Lemma array_items_more_fuel (f f' : nat) (s : string) :
  (f <= f')%nat -> array_items f s <> PFuel -> array_items f' s = array_items f s.
Proof.
  induction 1 as [|f' Hle IH]; [reflexivity|]. intros H.
  rewrite <- (IH H). apply (proj1 (proj2 (scan_fuel_step f'))).
  rewrite (IH H). exact H.
Qed.

Lemma object_items_more_fuel (f f' : nat) (s : string) :
  (f <= f')%nat -> object_items f s <> PFuel ->
  object_items f' s = object_items f s.
Proof.
  induction 1 as [|f' Hle IH]; [reflexivity|]. intros H.
  rewrite <- (IH H). apply (proj2 (proj2 (scan_fuel_step f'))).
  rewrite (IH H). exact H.
Qed.

(** ** Dictionaries *)

Lemma distinct_NoDup (l : list string) : distinct l = true <-> NoDup l.
Proof.
  induction l as [|k r IH]; cbn [distinct].
  - split; [constructor | reflexivity].
  - rewrite andb_true_iff, negb_true_iff, IH. split.
    + intros [Hk Hr]. constructor; [|assumption]. intros Hin.
      assert (existsb (String.eqb k) r = true); [|congruence].
      apply existsb_exists. exists k. split; [assumption|apply String.eqb_refl].
    + intros H. inversion H as [|? ? Hk Hr]; subst. split; [|assumption].
      destruct (existsb (String.eqb k) r) eqn:E; [|reflexivity].
      apply existsb_exists in E as (k' & Hin & Heq).
      apply String.eqb_eq in Heq. subst k'. contradiction.
Qed.

Lemma dict_set_fresh (d : list (string * json)) (k : string) (v : json) :
  ~ In k (map fst d) -> dict_set d k v = (d ++ [(k, v)])%list.
Proof.
  induction d as [|[k' v'] d IH]; intros H; [reflexivity|].
  cbn [dict_set map fst In app] in *.
  destruct (String.eqb_spec k k') as [->|Hne]; [tauto|].
  rewrite IH by tauto. reflexivity.
Qed.

Lemma py_dict_from (acc kvs : list (string * json)) :
  NoDup (map fst (acc ++ kvs)%list) ->
  fold_left (fun d kv => dict_set d (fst kv) (snd kv)) kvs acc = (acc ++ kvs)%list.
Proof.
  revert acc. induction kvs as [|[k v] kvs IH]; intros acc H.
  - now rewrite List.app_nil_r.
  - cbn [fold_left fst snd]. rewrite dict_set_fresh.
    + rewrite IH; rewrite <- List.app_assoc; [reflexivity|exact H].
    + rewrite map_app in H. cbn [map fst] in H.
      apply NoDup_remove_2 in H. intros Hin. apply H.
      apply in_or_app. now left.
Qed.

Lemma py_dict_distinct (kvs : list (string * json)) :
  distinct (map fst kvs) = true -> py_dict kvs = kvs.
Proof.
  intros H. apply distinct_NoDup in H. unfold py_dict.
  now rewrite py_dict_from.
Qed.

(** ** What a value cannot start with *)

Lemma scan_once_bad_start (f : nat) (c : ascii) (t : string) (v : json) (r : string) :
  is_ws c || Ascii.eqb c "]" || Ascii.eqb c "}" || Ascii.eqb c "239" = true ->
  scan_once f (String c t) <> POk v r.
Proof.
  intros H. destruct f as [|f]; [discriminate|].
  unfold is_ws in H.
  repeat (apply orb_true_iff in H as [H|H]);
    apply Ascii.eqb_eq in H; subst c; cbn; discriminate.
Qed.

Lemma scan_once_ok_start (f : nat) (s : string) (v : json) (r : string) :
  scan_once f s = POk v r ->
  exists c t, s = String c t /\ is_ws c = false /\ Ascii.eqb c "]" = false
              /\ Ascii.eqb c "239" = false.
Proof.
  intros H. destruct s as [|c t]; [destruct f; discriminate|].
  exists c, t. split; [reflexivity|].
  pose proof (scan_once_bad_start f c t v r) as Hb.
  destruct (is_ws c); [exfalso; apply Hb; [reflexivity|assumption]|].
  destruct (Ascii.eqb c "]"); [exfalso; apply Hb; [reflexivity|assumption]|].
  destruct (Ascii.eqb c "239");
    [exfalso; apply Hb; [now rewrite !orb_true_r|assumption]|].
  auto.
Qed.

Lemma scan_once_ok_skip_ws (f : nat) (s : string) (v : json) (r : string) :
  scan_once f s = POk v r -> skip_ws s = s.
Proof.
  intros H. apply scan_once_ok_start in H as (c & t & -> & Hw & _).
  cbn [skip_ws]. now rewrite Hw.
Qed.

Lemma array_items_ok_skip_ws (f : nat) (s : string) (l : list json) (r : string) :
  array_items f s = POk l r -> skip_ws s = s.
Proof.
  destruct f as [|f]; [discriminate|]. cbn [array_items].
  destruct (scan_once f s) as [v r'| |] eqn:E; try discriminate.
  intros _. eapply scan_once_ok_skip_ws, E.
Qed.

(** ** Reading back what the encoder writes *)

Lemma digit_cases (c : ascii) :
  is_digit c = true ->
  In c ["0"; "1"; "2"; "3"; "4"; "5"; "6"; "7"; "8"; "9"]%char.
Proof.
  destruct c as [b0 b1 b2 b3 b4 b5 b6 b7].
  destruct b0, b1, b2, b3, b4, b5, b6, b7; intros H;
    try (vm_compute in H; discriminate H); cbn [In]; tauto.
Qed.

Lemma scan_number_start (s : string) (v : json) (rest : string) :
  scan_number s = Some (v, rest) ->
  exists c t, s = String c t
              /\ In c ["-"; "0"; "1"; "2"; "3"; "4"; "5"; "6"; "7"; "8"; "9"]%char.
Proof.
  unfold scan_number, match_integer. destruct s as [|c t]; [discriminate|].
  intros H. exists c, t. split; [reflexivity|].
  destruct (Ascii.eqb_spec c "-") as [->|Hm]; [cbn [In]; tauto|].
  unfold match_unsigned in H.
  destruct (Ascii.eqb_spec c "0") as [->|H0]; [cbn [In]; tauto|].
  destruct (is_digit c) eqn:Hd; [|discriminate].
  right. now apply digit_cases.
Qed.

Lemma scan_once_number (f : nat) (s : string) (v : json) (rest : string) :
  scan_number s = Some (v, rest) -> scan_once (S f) s = POk v rest.
Proof.
  intros H. destruct (scan_number_start s v rest H) as (c & t & -> & Hc).
  cbn [scan_once]. unfold scan_literal, startswith.
  cbn [In] in Hc.
  repeat (destruct Hc as [<-|Hc];
          [rewrite !prefix_cons; cbn [Ascii.eqb Bool.eqb andb dquote];
           rewrite H; reflexivity|]).
  contradiction.
Qed.

(** *** Floats *)

Lemma delimited_cases (rest : string) :
  delimited rest = true ->
  rest = EmptyString
  \/ exists c r, rest = String c r /\ In c [","; "]"; "}"]%char.
Proof.
  destruct rest as [|c r]; [now left|]. cbn [delimited]. intros H. right.
  exists c, r. split; [reflexivity|].
  apply orb_true_iff in H as [H|H]; [apply orb_true_iff in H as [H|H]|];
    apply Ascii.eqb_eq in H; subst c; cbn [In]; tauto.
Qed.

Lemma digits_append (s ds r rest : string) :
  digits s = (ds, r) -> digits rest = (EmptyString, rest) ->
  digits (s ++ rest) = (ds, r ++ rest).
Proof.
  revert ds r. induction s as [|c s IH]; intros ds r H Hr.
  - cbn in H. injection H as <- <-. exact Hr.
  - cbn [digits append] in *. destruct (is_digit c).
    + destruct (digits s) as [ds' r'] eqn:E. injection H as <- <-.
      now rewrite (IH ds' r' eq_refl Hr).
    + injection H as <- <-. reflexivity.
Qed.

Lemma match_integer_append (s : string) (neg : bool) (ip r rest : string) :
  match_integer s = Some (neg, ip, r) -> digits rest = (EmptyString, rest) ->
  match_integer (s ++ rest) = Some (neg, ip, r ++ rest).
Proof.
  intros H Hr.
  assert (Hu : forall t ip' r', match_unsigned t = Some (ip', r') ->
                                match_unsigned (t ++ rest) = Some (ip', r' ++ rest)).
  { intros [|c t] ip' r' Ht; [discriminate|]. cbn [match_unsigned append] in *.
    destruct (Ascii.eqb c "0"); [now injection Ht as <- <-|].
    destruct (is_digit c); [|discriminate].
    destruct (digits t) as [ds r0] eqn:E. injection Ht as <- <-.
    now rewrite (digits_append t ds r0 rest E Hr). }
  unfold match_integer in *. destruct s as [|c t]; [discriminate|].
  cbn [append]. destruct (Ascii.eqb c "-").
  - destruct (match_unsigned t) as [[ip' r']|] eqn:E; [|discriminate].
    injection H as <- <- <-. now rewrite (Hu t ip' r' E).
  - destruct (match_unsigned (String c t)) as [[ip' r']|] eqn:E; [|discriminate].
    injection H as <- <- <-.
    change (String c (t ++ rest)) with (String c t ++ rest).
    now rewrite (Hu _ ip' r' E).
Qed.

Lemma match_frac_append (s fr r rest : string) :
  match_frac s = (fr, r) -> delimited rest = true ->
  match_frac (s ++ rest) = (fr, r ++ rest).
Proof.
  intros H Hd. pose proof (delimited_not_digit rest Hd) as Hr.
  destruct s as [|c [|d t]].
  - cbn in H. injection H as <- <-. now apply delimited_no_frac.
  - cbn in H. injection H as <- <-. cbn [append].
    destruct (delimited_cases rest Hd) as [->|(c' & r' & -> & Hc)]; [reflexivity|].
    cbn [In] in Hc. destruct Hc as [<-|[<-|[<-|[]]]]; cbn [match_frac];
      now rewrite andb_false_r.
  - cbn [match_frac append] in *. destruct (Ascii.eqb c "." && is_digit d).
    + destruct (digits t) as [ds r0] eqn:E. injection H as <- <-.
      now rewrite (digits_append t ds r0 rest E Hr).
    + injection H as <- <-. reflexivity.
Qed.

Lemma match_exp_append (s ex r rest : string) :
  match_exp s = (ex, r) -> delimited rest = true ->
  match_exp (s ++ rest) = (ex, r ++ rest).
Proof.
  intros H Hd. pose proof (delimited_not_digit rest Hd) as Hr.
  assert (Hnd : match rest with
                | String g _ => is_digit g = false
                             /\ Ascii.eqb g "+" || Ascii.eqb g "-" = false
                | EmptyString => True
                end).
  { destruct (delimited_cases rest Hd) as [->|(c' & r' & -> & Hc)]; [exact I|].
    cbn [In] in Hc. destruct Hc as [<-|[<-|[<-|[]]]]; split; reflexivity. }
  destruct s as [|e t].
  - cbn in H. injection H as <- <-. now apply delimited_no_exp.
  - cbn [match_exp append] in *.
    destruct (Ascii.eqb e "e" || Ascii.eqb e "E"); [|now injection H as <- <-].
    destruct t as [|g t'].
    + injection H as <- <-. cbn [append].
      destruct rest as [|g r']; [reflexivity|]. destruct Hnd as [Hg Hs].
      rewrite Hs, Hg. reflexivity.
    + cbn [append]. destruct (Ascii.eqb g "+" || Ascii.eqb g "-").
      * destruct t' as [|d t2].
        -- injection H as <- <-. cbn [append].
           destruct rest as [|g' r']; [reflexivity|]. destruct Hnd as [Hg _].
           rewrite Hg. reflexivity.
        -- cbn [append]. destruct (is_digit d); [|now injection H as <- <-].
           destruct (digits t2) as [ds r0] eqn:E. injection H as <- <-.
           now rewrite (digits_append t2 ds r0 rest E Hr).
      * destruct (is_digit g); [|now injection H as <- <-].
        destruct (digits t') as [ds r0] eqn:E. injection H as <- <-.
        now rewrite (digits_append t' ds r0 rest E Hr).
Qed.

(** A number with a fraction or an exponent that is a whole text is read in
    full when a delimiter follows it. *)
Lemma scan_number_float_append (lit l rest : string) :
  scan_number lit = Some (JFloat l, EmptyString) -> delimited rest = true ->
  scan_number (lit ++ rest) = Some (JFloat l, rest).
Proof.
  intros H Hd. unfold scan_number in *.
  destruct (match_integer lit) as [[[neg ip] r1]|] eqn:Ei; [|discriminate].
  destruct (match_frac r1) as [fr r2] eqn:Ef.
  destruct (match_exp r2) as [ex r3] eqn:Ee.
  rewrite (match_integer_append _ _ _ _ rest Ei (delimited_not_digit rest Hd)).
  rewrite (match_frac_append _ _ _ rest Ef Hd).
  rewrite (match_exp_append _ _ _ rest Ee Hd).
  destruct (is_empty fr && is_empty ex); [discriminate|].
  injection H as <- ->. reflexivity.
Qed.

Lemma float_text_reads_back (lit rest : string) (f : nat) :
  float_text lit = true -> delimited rest = true ->
  scan_once (S f) (lit ++ rest) = POk (JFloat lit) rest.
Proof.
  unfold float_text, scan_literal. intros H Hd.
  destruct (startswith lit "null"); [discriminate|].
  destruct (startswith lit "true"); [discriminate|].
  destruct (startswith lit "false"); [discriminate|].
  destruct (scan_number lit) as [[v r]|] eqn:E.
  - destruct v; try discriminate. destruct r; [|discriminate].
    apply andb_true_iff in H as [H _]. apply String.eqb_eq in H. subst lit0.
    apply scan_once_number. now apply scan_number_float_append.
  - assert (Hc : lit = "Infinity" \/ lit = "-Infinity").
    { destruct (startswith lit "NaN").
      - destruct (drop 3 lit); [|discriminate].
        apply andb_true_iff in H as [H1 H2]. apply String.eqb_eq in H1.
        subst lit. discriminate.
      - destruct (startswith lit "Infinity").
        + destruct (drop 8 lit); [|discriminate].
          apply andb_true_iff in H as [H1 _]. apply String.eqb_eq in H1. now left.
        + destruct (startswith lit "-Infinity"); [|discriminate].
          destruct (drop 9 lit); [|discriminate].
          apply andb_true_iff in H as [H1 _]. apply String.eqb_eq in H1. now right. }
    destruct Hc as [-> | ->]; cbn [append scan_once];
      unfold scan_literal, startswith; rewrite !prefix_cons;
      cbn; now destruct rest.
Qed.

(** *** Containers *)

Lemma array_items_reads_back (l : list json) :
  l <> [] ->
  Forall reads_back l ->
  forallb json_representable l = true ->
  forall rest,
  exists f, array_items f (join ", " (map json_dumps l) ++ String "]" rest)
            = POk l rest.
Proof.
  induction l as [|x l IH]; [congruence|]. intros _ HF Hr rest.
  inversion HF as [|? ? Hx Hl]; subst.
  cbn [forallb] in Hr. apply andb_true_iff in Hr as [Hrx Hrl].
  destruct l as [|y l'].
  - destruct (Hx Hrx (String "]" rest) eq_refl) as (f1 & E1).
    exists (S f1). cbn [map join array_items]. rewrite E1. reflexivity.
  - destruct (IH ltac:(discriminate) Hl Hrl rest) as (f2 & E2).
    remember (join ", " (map json_dumps (y :: l')) ++ String "]" rest) as X eqn:EX.
    destruct (Hx Hrx (String "," (String " " X)) eq_refl) as (f1 & E1).
    exists (S (Nat.max f1 f2)).
    change (join ", " (map json_dumps (x :: y :: l')))
      with (json_dumps x ++ ", " ++ join ", " (map json_dumps (y :: l'))).
    rewrite !append_assoc. cbn [append]. rewrite <- EX.
    cbn [array_items].
    rewrite (scan_once_more_fuel f1 (Nat.max f1 f2))
      by (lia || rewrite E1; discriminate).
    rewrite E1. cbn [skip_ws is_ws Ascii.eqb Bool.eqb orb].
    rewrite (array_items_ok_skip_ws _ _ _ _ E2).
    rewrite (array_items_more_fuel f2 (Nat.max f1 f2))
      by (lia || rewrite E2; discriminate).
    rewrite E2. reflexivity.
Qed.

Lemma object_items_reads_back (kvs : list (string * json)) :
  kvs <> [] ->
  Forall (fun kv => reads_back (snd kv)) kvs ->
  forallb (fun kv => json_representable (snd kv)) kvs = true ->
  forall rest,
  exists f T, members kvs ++ String "}" rest = String dquote T
              /\ object_items f T = POk kvs rest.
Proof.
  induction kvs as [|[k v] kvs IH]; [congruence|]. intros _ HF Hr rest.
  inversion HF as [|? ? Hv Hl]; subst. cbn [snd] in Hv.
  cbn [forallb snd] in Hr. apply andb_true_iff in Hr as [Hrv Hrl].
  destruct kvs as [|kv2 kvs'].
  - destruct (Hv Hrv (String "}" rest) eq_refl) as (f1 & E1).
    exists (S f1). eexists. split.
    + unfold members, encode_basestring, dq. cbn [map join fst snd].
      rewrite !append_assoc. cbn [append]. reflexivity.
    + cbn [object_items]. rewrite scanstring_escape.
      cbn [skip_ws is_ws Ascii.eqb Bool.eqb orb].
      rewrite (scan_once_ok_skip_ws _ _ _ _ E1), E1. reflexivity.
  - destruct (IH ltac:(discriminate) Hl Hrl rest) as (f2 & T2 & ET & E2).
    destruct (Hv Hrv (String "," (String " " (String dquote T2))) eq_refl)
      as (f1 & E1).
    exists (S (Nat.max f1 f2)). eexists. split.
    + change (members ((k, v) :: kv2 :: kvs'))
        with (((dq ++ escape k ++ dq) ++ ": " ++ json_dumps v) ++ ", "
                ++ members (kv2 :: kvs')).
      unfold dq. rewrite !append_assoc. cbn [append]. rewrite ET. reflexivity.
    + cbn [object_items]. rewrite scanstring_escape.
      cbn [skip_ws is_ws Ascii.eqb Bool.eqb orb].
      rewrite (scan_once_ok_skip_ws _ _ _ _ E1).
      rewrite (scan_once_more_fuel f1 (Nat.max f1 f2))
        by (lia || rewrite E1; discriminate).
      rewrite E1. cbn [skip_ws is_ws Ascii.eqb Bool.eqb orb dquote].
      rewrite (object_items_more_fuel f2 (Nat.max f1 f2))
        by (lia || rewrite E2; discriminate).
      rewrite E2. reflexivity.
Qed.

Lemma scan_once_reads_back (x : json) : reads_back x.
Proof.
  induction x as [| b | z | lit | s | l IH | kvs IH] using json_ind;
    intros Hr rest Hd.
  - exists 1%nat. cbn. now destruct rest.
  - exists 1%nat. destruct b; cbn; now destruct rest.
  - exists 1%nat. apply scan_once_number, scan_number_repr, Hd.
  - exists 1%nat. now apply float_text_reads_back.
  - exists 1%nat. cbn [json_dumps]. unfold encode_basestring, dq.
    rewrite !append_assoc. cbn [append scan_once Ascii.eqb Bool.eqb dquote].
    rewrite scanstring_escape. reflexivity.
  - cbn [json_representable] in Hr. cbn [json_dumps].
    destruct l as [|x l'].
    + exists 1%nat. reflexivity.
    + destruct (array_items_reads_back (x :: l') ltac:(discriminate) IH Hr rest)
        as (f & E).
      exists (S f). rewrite !append_assoc. cbn [append].
      remember (join ", " (map json_dumps (x :: l')) ++ String "]" rest) as X.
      cbn [scan_once Ascii.eqb Bool.eqb].
      rewrite (array_items_ok_skip_ws _ _ _ _ E).
      destruct f as [|f]; [discriminate|]. cbn [array_items] in E.
      destruct (scan_once f X) as [v r| |] eqn:Ev; try discriminate.
      destruct (scan_once_ok_start _ _ _ _ Ev) as (c & t & -> & _ & Hc & _).
      rewrite Hc. cbn [array_items]. rewrite Ev, E. reflexivity.
  - cbn [json_representable] in Hr. apply andb_true_iff in Hr as [Hk Hr].
    cbn [json_dumps]. fold (members kvs).
    destruct kvs as [|kv kvs'].
    + exists 1%nat. reflexivity.
    + destruct (object_items_reads_back (kv :: kvs') ltac:(discriminate) IH Hr rest)
        as (f & T & ET & E).
      exists (S f). rewrite !append_assoc. cbn [append]. rewrite ET.
      cbn [scan_once Ascii.eqb Bool.eqb skip_ws is_ws orb dquote].
      rewrite E. cbn [pmap]. now rewrite py_dict_distinct.
Qed.

(** The fuel [json_loads] gives the scanner is enough for every document:
    the model never reports recursion too deep. *)
Lemma json_loads_fuel (s : string) :
  scan_once (fuel_for s) (skip_ws s) <> PFuel.
Proof.
  pose proof (proj1 (scan_fuel_enough (fuel_for s)) (skip_ws s)) as H.
  pose proof (skip_ws_length s) as Hl. unfold fuel_for in *.
  specialize (H ltac:(lia)). intros E. rewrite E in H. exact H.
Qed.

Lemma json_loads_never_recursion_error (s : string) (msg : string) :
  json_loads s <> Raise (RecursionError msg).
Proof.
  unfold json_loads. pose proof (json_loads_fuel s) as H.
  destruct (startswith s bom); [discriminate|].
  destruct (scan_once (fuel_for s) (skip_ws s)) as [v r|m a|];
    [destruct (skip_ws r); discriminate | discriminate | contradiction].
Qed.

(** A decoder that does not run out of fuel on what the encoder wrote reads
    the value back. *)
Lemma scan_once_determined (x : json) (rest : string) (f : nat) :
  json_representable x = true -> delimited rest = true ->
  scan_once f (json_dumps x ++ rest) <> PFuel ->
  scan_once f (json_dumps x ++ rest) = POk x rest.
Proof.
  intros Hr Hd Hf. destruct (scan_once_reads_back x Hr rest Hd) as (f0 & E0).
  rewrite <- (scan_once_more_fuel f (Nat.max f f0)) by (lia || exact Hf).
  rewrite (scan_once_more_fuel f0 (Nat.max f f0))
    by (lia || rewrite E0; discriminate).
  exact E0.
Qed.


(** The fuel of [json_loads] reads the whole text of a value back. *)
Lemma scan_dumps (x : json) :
  json_representable x = true ->
  startswith (json_dumps x) bom = false
  /\ skip_ws (json_dumps x) = json_dumps x
  /\ scan_once (fuel_for (json_dumps x)) (json_dumps x) = POk x EmptyString.
Proof.
  intros Hr. destruct (scan_once_reads_back x Hr EmptyString eq_refl) as (f & E).
  rewrite append_empty_r in E. set (s := json_dumps x) in *.
  destruct (scan_once_ok_start _ _ _ _ E) as (c & t & Es & Hw & _ & Hb).
  pose proof (scan_once_ok_skip_ws _ _ _ _ E) as Hs.
  split; [|split; [exact Hs|]].
  - rewrite Es. unfold startswith, bom. rewrite prefix_cons.
    rewrite Ascii.eqb_sym, Hb. reflexivity.
  - pose proof (json_loads_fuel s) as Hf. rewrite Hs in Hf.
    rewrite <- (append_empty_r s) at 2. apply scan_once_determined;
      [exact Hr | reflexivity | now rewrite append_empty_r].
Qed.

(** The decoder and the encoder of [Json] invert each other on every
    representable value. *)
Lemma json_loads_dumps (x : json) :
  json_representable x = true -> json_loads (json_dumps x) = Ok x.
Proof.
  intros Hr. destruct (scan_dumps x Hr) as (Hbom & Hs & E).
  unfold json_loads. now rewrite Hbom, Hs, E.
Qed.

(** ** The encoder and the decoder within the limits *)








(** The limits add exceptions and change nothing else. *)
Lemma lmap_agrees {A B : Type} (g : A -> B) (l : Limits.lres A) (p : pres A) :
  agrees l p -> agrees (Limits.lmap g l) (pmap g p).
Proof.
  intros [[e ->]| ->]; [left; now exists e|right; now destruct p].
Qed.

Lemma scan_agrees (lim : Limits.limits) (f : nat) :
  (forall d s, agrees (Limits.scan_once lim d f s) (scan_once f s))
  /\ (forall d s, agrees (Limits.array_items lim d f s) (array_items f s))
  /\ (forall d s, agrees (Limits.object_items lim d f s) (object_items f s)).
Proof.
  induction f as [|f (IHs & IHa & IHo)]; [repeat split; intros; now right|].
  repeat split; intros d s.
  - cbn [scan_once Limits.scan_once].
    destruct s as [|c r]; [now right|].
    destruct (Ascii.eqb c dquote); [now right|].
    destruct (Ascii.eqb c "{").
    { destruct d as [|d]; [left; eexists; reflexivity|].
      destruct (skip_ws r) as [|c1 r2]; [now right|].
      destruct (Ascii.eqb c1 "}"); [now right|].
      destruct (Ascii.eqb c1 dquote); [|now right].
      apply lmap_agrees, IHo. }
    destruct (Ascii.eqb c "[").
    { destruct d as [|d]; [left; eexists; reflexivity|].
      destruct (skip_ws r) as [|c1 r2]; [apply lmap_agrees, IHa|].
      destruct (Ascii.eqb c1 "]"); [now right|].
      apply lmap_agrees, IHa. }
    unfold Limits.scan_literal.
    destruct (scan_literal (String c r)) as [v r'|m a|]; try now right.
    destruct v; try now right.
    destruct (Limits.too_many_digits lim (Limits.num_digits z));
      [left; eexists; reflexivity|now right].
  - cbn [array_items Limits.array_items].
    destruct (IHs d s) as [[e ->]| ->]; [left; now exists e|].
    destruct (scan_once f s) as [v r|m a|]; cbn [Limits.of_pres]; try now right.
    destruct (skip_ws r) as [|c r2]; [now right|].
    destruct (Ascii.eqb c "]"); [now right|].
    destruct (Ascii.eqb c ","); [|now right].
    apply lmap_agrees, IHa.
  - cbn [object_items Limits.object_items].
    destruct (scanstring (String dquote s) s) as [key r|m a|]; try now right.
    destruct (skip_ws r) as [|c r2]; [now right|].
    destruct (Ascii.eqb c ":"); [|now right].
    destruct (IHs d (skip_ws r2)) as [[e ->]| ->]; [left; now exists e|].
    destruct (scan_once f (skip_ws r2)) as [v r4|m a|]; cbn [Limits.of_pres];
      try now right.
    destruct (skip_ws r4) as [|c5 r6]; [now right|].
    destruct (Ascii.eqb c5 "}"); [now right|].
    destruct (Ascii.eqb c5 ","); [|now right].
    destruct (skip_ws r6) as [|c7 r8]; [now right|].
    destruct (Ascii.eqb c7 dquote); [|now right].
    apply lmap_agrees, IHo.
Qed.

(** [Limits.json_loads] raises an exception of the limits or does what
    [Json.json_loads] does; it never runs out of fuel. *)
Lemma json_loads_agrees (lim : Limits.limits) (s : string) :
  (exists e, Limits.json_loads lim s = Raise e
             /\ Limits.scan_once lim (Limits.decoder_depth lim) (fuel_for s) (skip_ws s)
                = Limits.LRaise e)
  \/ Limits.json_loads lim s = json_loads s.
Proof.
  unfold Limits.json_loads, json_loads.
  destruct (startswith s bom); [now right|].
  destruct (proj1 (scan_agrees lim (fuel_for s)) (Limits.decoder_depth lim)
              (skip_ws s)) as [[e He]|He]; rewrite He.
  - left. now exists e.
  - right. pose proof (json_loads_fuel s) as Hf.
    destruct (scan_once (fuel_for s) (skip_ws s)); [reflexivity..|contradiction].
Qed.




(** *** Outside the limits *)






(** Nor is a value returned that is nested one level deeper than the
    encoder may go. *)
Lemma listencode_obj_too_deep (floatstr : string -> string) (lim : Limits.limits)
      (d : nat) :
  Limits.listencode_obj floatstr lim d (nested (S d))
  = Raise (Limits.too_deep " while encoding a JSON object").
Proof.
  induction d as [|d IH]; [reflexivity|].
  change (nested (S (S d))) with (JList [nested (S d)]).
  cbn [Limits.listencode_obj Limits.traverse]. now rewrite IH.
Qed.

Lemma deep_nesting_is_not_returned (floatstr : string -> string)
      (lim : Limits.limits) :
  round_trip floatstr lim (nested (S (Limits.encoder_depth lim)))
  = Raise (RecursionError
             "maximum recursion depth exceeded while encoding a JSON object").
Proof.
  unfold round_trip, Limits.json_dumps. now rewrite listencode_obj_too_deep.
Qed.

(** ** Email styles *)

(** C9.  The second instruction of the email writer is the instruction of
    the style named by the key when the key is Professional, Casual, Cold
    or Consultative, and the Professional one for any other key. *)
Theorem email_style_falls_back_to_professional (style_key : string) :
  nth_error (prompts.get_email_writer_instructions style_key) 1
  = Some (style_instruction
            (match style_of_key style_key with
             | Some s => s
             | None => Professional
             end)).
Proof.
  unfold prompts.get_email_writer_instructions, style_of_key.
  cbn [nth_error prompts.lookup prompts.EMAIL_STYLES].
  destruct (String.eqb style_key "Professional"); [reflexivity|].
  destruct (String.eqb style_key "Casual"); [reflexivity|].
  destruct (String.eqb style_key "Cold"); [reflexivity|].
  destruct (String.eqb style_key "Consultative"); reflexivity.
Qed.

(** ** Stage runners *)

Section Runners.

Variable agent_reply : list event -> Agent -> string -> result string.

Lemma run_company_finder_eq agent td od n w :
  run_company_finder agent_reply agent td od n w =
  (match agent_reply (log w) agent (prompts.COMPANY_FINDER_PROMPT_TEMPLATE n td od) with
   | Ok resp =>
       match extract_json_or_raise resp with
       | Ok data =>
           match Value.get data "companies" (JList []) with
           | Ok cs => Value.slice_to cs (Z.max 1 (Z.min n 10))
           | Raise e => Raise e
           end
       | Raise e => Raise e
       end
   | Raise e => Raise e
   end,
   asked agent (prompts.COMPANY_FINDER_PROMPT_TEMPLATE n td od) w).
Proof.
  unfold run_company_finder, bind, agent_run, lift, asked.
  destruct (agent_reply _ _ _) as [resp|e]; [|reflexivity].
  destruct (extract_json_or_raise resp) as [data|e]; [|reflexivity].
  destruct (Value.get data _ _) as [cs|e]; reflexivity.
Qed.

Lemma run_contact_finder_eq agent cs td od w :
  run_contact_finder agent_reply agent cs td od w =
  keyed_reply agent_reply agent (prompts.CONTACT_FINDER_PROMPT_TEMPLATE td od (json_dumps cs))
    "companies" w.
Proof.
  unfold run_contact_finder, keyed_reply, bind, agent_run, lift, asked.
  destruct (agent_reply _ _ _) as [resp|e]; [|reflexivity].
  destruct (extract_json_or_raise resp) as [data|e]; reflexivity.
Qed.

Lemma run_research_eq agent cs w :
  run_research agent_reply agent cs w =
  keyed_reply agent_reply agent (prompts.RESEARCH_PROMPT_TEMPLATE (json_dumps cs)) "companies" w.
Proof.
  unfold run_research, keyed_reply, bind, agent_run, lift, asked.
  destruct (agent_reply _ _ _) as [resp|e]; [|reflexivity].
  destruct (extract_json_or_raise resp) as [data|e]; reflexivity.
Qed.

Lemma run_email_writer_eq agent ct rs od sn sc cl w :
  run_email_writer agent_reply agent ct rs od sn sc cl w =
  keyed_reply agent_reply agent
    (prompts.EMAIL_WRITER_PROMPT_TEMPLATE sn sc od
       (match cl with Some l => l | None => "N/A" end)
       (json_dumps ct) (json_dumps rs)) "emails" w.
Proof.
  unfold run_email_writer, keyed_reply, bind, agent_run, lift, asked.
  destruct (agent_reply _ _ _) as [resp|e]; [|reflexivity].
  destruct (extract_json_or_raise resp) as [data|e]; reflexivity.
Qed.

Lemma firstn_clamped {A : Type} (l : list A) (k : Z) :
  1 <= k ->
  firstn (adjust_index (Z.of_nat (List.length l)) k) l = firstn (Z.to_nat k) l.
Proof.
  intros Hk. unfold adjust_index.
  destruct (Z.ltb_spec k 0); [lia|].
  destruct (Z.le_gt_cases k (Z.of_nat (List.length l))).
  - f_equal. lia.
  - replace (Z.to_nat _) with (List.length l) by lia.
    rewrite firstn_all. symmetry. apply firstn_all2. lia.
Qed.

(** C2.  For a requested count between 1 and 10 and a list found under
    [companies] in the parsed reply, the company finder returns the first
    [max(1, min(N, 10))] members of the list, in order; the result is no
    longer than [min(N, 10)] and no longer than the list. *)
Theorem company_finder_returns_clamped_prefix
  (agent : Agent) (target_desc offering_desc : string) (N : Z) (w : world)
  (resp : string) (d : list (string * json)) (L : list json) :
  1 <= N <= 10 ->
  agent_reply (log w) agent
    (prompts.COMPANY_FINDER_PROMPT_TEMPLATE N target_desc offering_desc) = Ok resp ->
  extract_json_or_raise resp = Ok (JDict d) ->
  dict_get d "companies" = Some (JList L) ->
  let kept := firstn (Z.to_nat (Z.max 1 (Z.min N 10))) L in
  fst (run_company_finder agent_reply agent target_desc offering_desc N w)
  = Ok (JList kept)
  /\ (List.length kept <= Z.to_nat (Z.min N 10))%nat
  /\ (List.length kept <= List.length L)%nat.
Proof.
  intros HN Hr He Hd kept. rewrite run_company_finder_eq, Hr, He.
  cbn [fst Value.get]. rewrite Hd. cbn [Value.slice_to].
  rewrite firstn_clamped by lia. split; [reflexivity|].
  subst kept. rewrite length_firstn. split; lia.
Qed.

(** C6.  When the reply parses to an object without the key the stage looks
    for, each runner returns the empty list and raises nothing. *)
Theorem runners_default_to_empty_list_without_key :
  (forall agent td od n w resp d,
      agent_reply (log w) agent (prompts.COMPANY_FINDER_PROMPT_TEMPLATE n td od)
      = Ok resp ->
      extract_json_or_raise resp = Ok (JDict d) ->
      dict_get d "companies" = None ->
      fst (run_company_finder agent_reply agent td od n w) = Ok (JList []))
  /\ (forall agent cs td od w resp d,
      agent_reply (log w) agent
        (prompts.CONTACT_FINDER_PROMPT_TEMPLATE td od (json_dumps cs)) = Ok resp ->
      extract_json_or_raise resp = Ok (JDict d) ->
      dict_get d "companies" = None ->
      fst (run_contact_finder agent_reply agent cs td od w) = Ok (JList []))
  /\ (forall agent cs w resp d,
      agent_reply (log w) agent (prompts.RESEARCH_PROMPT_TEMPLATE (json_dumps cs))
      = Ok resp ->
      extract_json_or_raise resp = Ok (JDict d) ->
      dict_get d "companies" = None ->
      fst (run_research agent_reply agent cs w) = Ok (JList []))
  /\ (forall agent ct rs od sn sc cl w resp d,
      agent_reply (log w) agent
        (prompts.EMAIL_WRITER_PROMPT_TEMPLATE sn sc od
           (match cl with Some l => l | None => "N/A" end)
           (json_dumps ct) (json_dumps rs)) = Ok resp ->
      extract_json_or_raise resp = Ok (JDict d) ->
      dict_get d "emails" = None ->
      fst (run_email_writer agent_reply agent ct rs od sn sc cl w) = Ok (JList [])).
Proof.
  repeat split; intros.
  - rewrite run_company_finder_eq, H, H0. cbn [fst Value.get]. rewrite H1.
    cbn [Value.slice_to]. now rewrite firstn_nil.
  - rewrite run_contact_finder_eq. unfold keyed_reply. rewrite H, H0.
    cbn [fst Value.get]. now rewrite H1.
  - rewrite run_research_eq. unfold keyed_reply. rewrite H, H0.
    cbn [fst Value.get]. now rewrite H1.
  - rewrite run_email_writer_eq. unfold keyed_reply. rewrite H, H0.
    cbn [fst Value.get]. now rewrite H1.
Qed.

Lemma bind_eq {A B : Type} (c : M A) (k : A -> M B) (w : world) :
  bind c k w = match c w with
               | (Ok a, w1) => k a w1
               | (Raise e, w1) => (Raise e, w1)
               end.
Proof. reflexivity. Qed.

Lemma run_company_finder_world agent td od n w :
  run_company_finder agent_reply agent td od n w
  = (fst (run_company_finder agent_reply agent td od n w),
     asked agent (prompts.COMPANY_FINDER_PROMPT_TEMPLATE n td od) w).
Proof. now rewrite run_company_finder_eq. Qed.

Lemma run_contact_finder_world agent cs td od w :
  run_contact_finder agent_reply agent cs td od w
  = (fst (run_contact_finder agent_reply agent cs td od w),
     asked agent (prompts.CONTACT_FINDER_PROMPT_TEMPLATE td od (json_dumps cs)) w).
Proof. now rewrite run_contact_finder_eq. Qed.

Lemma run_research_world agent cs w :
  run_research agent_reply agent cs w
  = (fst (run_research agent_reply agent cs w),
     asked agent (prompts.RESEARCH_PROMPT_TEMPLATE (json_dumps cs)) w).
Proof. now rewrite run_research_eq. Qed.

Lemma run_email_writer_world agent ct rs od sn sc cl w :
  run_email_writer agent_reply agent ct rs od sn sc cl w
  = (fst (run_email_writer agent_reply agent ct rs od sn sc cl w),
     asked agent
       (prompts.EMAIL_WRITER_PROMPT_TEMPLATE sn sc od
          (match cl with Some l => l | None => "N/A" end)
          (json_dumps ct) (json_dumps rs)) w).
Proof. now rewrite run_email_writer_eq. Qed.

Ltac exec1 :=
  first
    [ match goal with
      | |- context [match Value.len ?x with _ => _ end] =>
          destruct (Value.len x) eqn:?
      | |- context [(if Value.truthy ?x then _ else _) ?w] =>
          destruct (Value.truthy x) eqn:?
      | |- context [match run_company_finder ?r ?a ?t ?o ?n ?w with _ => _ end] =>
          rewrite (run_company_finder_world a t o n w);
          destruct (fst (run_company_finder r a t o n w)) eqn:?
      | |- context [match run_contact_finder ?r ?a ?c ?t ?o ?w with _ => _ end] =>
          rewrite (run_contact_finder_world a c t o w);
          destruct (fst (run_contact_finder r a c t o w)) eqn:?
      | |- context [match run_research ?r ?a ?c ?w with _ => _ end] =>
          rewrite (run_research_world a c w);
          destruct (fst (run_research r a c w)) eqn:?
      | |- context [match run_email_writer ?r ?a ?c ?rs ?o ?sn ?sc ?cl ?w
                    with _ => _ end] =>
          rewrite (run_email_writer_world a c rs o sn sc cl w);
          destruct (fst (run_email_writer r a c rs o sn sc cl w)) eqn:?
      end
    | rewrite bind_eq;
      cbn [tell lift ret set_results log gtm_results
           Value.len Value.truthy List.length] ].

Lemma extends_nil {A : Type} (old : list A) : old = ([] ++ old)%list.
Proof. reflexivity. Qed.

Lemma extends_cons {A : Type} (x : A) (l new old : list A) :
  l = (new ++ old)%list -> x :: l = ((x :: new) ++ old)%list.
Proof. intros ->. reflexivity. Qed.

Ltac extends := repeat first [ apply extends_nil | apply extends_cons ].

Ltac exec := repeat exec1; cbn [asked log gtm_results].

(** Whatever the agents answer, the body of the [try] either raises, having
    written nothing to the session state, or returns after the four
    checkpoints with the bundle written once, just before the final
    message. *)
Lemma pipeline_outcome (i : Inputs) (w0 : world) :
  exists new,
    log (snd (pipeline agent_reply i w0)) = (new ++ log w0)%list
    /\ match fst (pipeline agent_reply i w0) with
       | Raise e =>
           no_write new = true
           /\ gtm_results (snd (pipeline agent_reply i w0)) = gtm_results w0
       | Ok _ =>
           exists R rest,
             new = completed_marker :: ESessionWrite R :: rest
             /\ no_write rest = true
             /\ gtm_results (snd (pipeline agent_reply i w0)) = Some R
             /\ (forall p, In p [25; 50; 75; 100] -> In (EProgress p) rest)
       end.
Proof.
  unfold pipeline. exec.
  all: cbn [fst snd log gtm_results].
  all: eexists; (split; [extends|]).
  all: try (split; reflexivity).
  all: do 2 eexists; (split; [reflexivity|]); (split; [reflexivity|]);
    (split; [reflexivity|]).
  all: intros p Hp; cbn [In] in Hp |- *;
    repeat (destruct Hp as [<-|Hp]; [tauto|]); contradiction.
Qed.

Lemma start_outreach_eq (i : Inputs) (w : world) :
  inputs_valid i = true ->
  start_outreach agent_reply i w
  = match pipeline agent_reply i (said [EProgress 0] w) with
    | (Ok _, w1) => w1
    | (Raise e, w1) => said [EStError (str_of_exn e); failed_marker] w1
    end.
Proof.
  unfold inputs_valid, start_outreach. intros H.
  apply andb_true_iff in H as [H1 H2].
  apply negb_true_iff in H1, H2. rewrite H1, H2.
  rewrite bind_eq. cbn [tell]. unfold said. cbn [app].
  destruct (pipeline _ _ _) as [[u|e] w1]; reflexivity.
Qed.

Ltac follow :=
  repeat (rewrite bind_eq;
          cbn [tell lift ret set_results log gtm_results Value.len Value.truthy List.length];
          repeat match goal with
                 | H : ?l = _ |- context [?l] => rewrite H
                 end).

Ltac open_stages :=
  unfold company_stage, contact_stage, research_stage, email_stage,
    before_companies, before_contacts, before_research, before_emails, said in *;
  cbn [app log gtm_results] in *.

(** The world a stage runner returns is the world it was called in, with
    the call recorded. *)
Ltac worlds :=
  repeat match goal with
         | H : run_company_finder _ ?a ?t ?o ?n ?w0 = (_, ?w1) |- _ =>
             let Hw := fresh "Hw" in
             pose proof (run_company_finder_world a t o n w0) as Hw;
             rewrite H in Hw; clear H; injection Hw as Hw; try subst w1
         | H : run_contact_finder _ ?a ?c ?t ?o ?w0 = (_, ?w1) |- _ =>
             let Hw := fresh "Hw" in
             pose proof (run_contact_finder_world a c t o w0) as Hw;
             rewrite H in Hw; clear H; injection Hw as Hw; try subst w1
         end.

(** An error of a stage runner leaves the [try]. *)
Lemma runner_raises_pipeline (i : Inputs) (w : world) (e : exn) :
  runner_raises agent_reply i w e ->
  fst (pipeline agent_reply i (said [EProgress 0] w)) = Raise e.
Proof.
  intros H. unfold pipeline. destruct H; open_stages; follow; reflexivity.
Qed.

(** C3.  A run either fails or completes.  If it fails, and it does when a
    stage runner raises, the final message is the failure notice followed by
    the text of the error, nothing was written to the session state during
    the run, and the stored bundle is the one from before, still shown.  If
    it completes, the bundle was written once, after the four checkpoints
    and just before the final message. *)
Theorem failed_run_keeps_stored_result (i : Inputs) (w : world) :
  inputs_valid i = true ->
  let w' := start_outreach agent_reply i w in
  exists new,
    log w' = (new ++ log w)%list
    /\ (forall e, runner_raises agent_reply i w e ->
          (exists rest, new = EStError (str_of_exn e) :: failed_marker :: rest)
          /\ no_write new = true
          /\ gtm_results w' = gtm_results w
          /\ snd (main agent_reply true i w) = gtm_results w)
    /\ ((exists e rest,
           new = EStError (str_of_exn e) :: failed_marker :: rest
           /\ no_write new = true
           /\ gtm_results w' = gtm_results w)
        \/ (exists R rest,
              new = completed_marker :: ESessionWrite R :: rest
              /\ no_write rest = true
              /\ gtm_results w' = Some R
              /\ (forall p, In p [25; 50; 75; 100] -> In (EProgress p) rest))).
Proof.
  intros Hv w'. subst w'. unfold main. cbn [snd].
  rewrite (start_outreach_eq _ _ Hv).
  destruct (pipeline_outcome i (said [EProgress 0] w)) as (new & Hlog & Hout).
  assert (Hraise : forall e,
             runner_raises agent_reply i w e ->
             fst (pipeline agent_reply i (said [EProgress 0] w)) = Raise e)
    by (intros e; apply runner_raises_pipeline).
  destruct (pipeline agent_reply i (said [EProgress 0] w)) as [[u|e0] w1].
  - cbn [fst snd] in *. destruct Hout as (R & rest & -> & Hnw & Hres & Hp).
    exists (completed_marker :: ESessionWrite R :: rest ++ [EProgress 0])%list.
    split; [|split].
    + rewrite Hlog. cbn [app said log]. now rewrite <- !List.app_assoc.
    + intros e He. apply Hraise in He. discriminate.
    + right. exists R, (rest ++ [EProgress 0])%list.
      repeat split; try assumption.
      * unfold no_write in *. rewrite forallb_app, Hnw. reflexivity.
      * intros p Hin. apply in_or_app. left. now apply Hp.
  - cbn [fst snd] in *. destruct Hout as [Hnw Hres].
    exists (EStError (str_of_exn e0) :: failed_marker :: new ++ [EProgress 0])%list.
    assert (Hnw' : no_write (EStError (str_of_exn e0) :: failed_marker
                               :: new ++ [EProgress 0])%list = true).
    { unfold no_write in *. cbn [forallb is_write failed_marker negb andb].
      rewrite forallb_app, Hnw. reflexivity. }
    split; [|split].
    + cbn [said log app]. rewrite Hlog. cbn [said log app].
      now rewrite <- !List.app_assoc.
    + intros e He. apply Hraise in He. injection He as <-.
      repeat split; try assumption; eauto.
    + left. exists e0, (new ++ [EProgress 0])%list. repeat split; assumption.
Qed.

(** C4.  When the company finder returns the empty list, the only agent
    run is the company finder: the contact finder and the researcher (and
    the email writer) are not called.  The run completes without a failure
    notice, and the bundle it stores has empty contacts, research and
    emails. *)
Theorem no_companies_skips_later_stages (i : Inputs) (w w1 : world) :
  inputs_valid i = true ->
  company_stage agent_reply i (before_companies w) = (Ok (JList []), w1) ->
  let w' := start_outreach agent_reply i w in
  exists new,
    log w' = (new ++ log w)%list
    /\ agents_run new = [create_company_finder_agent]
    /\ hd_error new = Some completed_marker
    /\ no_failure new = true
    /\ gtm_results w' = Some empty_result.
Proof.
  intros Hv H1 w'. subst w'. rewrite (start_outreach_eq _ _ Hv).
  unfold pipeline. open_stages. follow.
  worlds. cbn [asked log gtm_results].
  eexists. split; [extends|]. repeat split.
Qed.

(** C5.  When the contact finder is called and returns the empty list, the
    email writer is not run; the run either fails later (in the research
    stage) and stores nothing, or completes with an empty list of emails. *)
Theorem no_contacts_skips_email_writer
  (i : Inputs) (w : world) (cs : json) (n1 : nat) (w1 w2 : world) :
  inputs_valid i = true ->
  company_stage agent_reply i (before_companies w) = (Ok cs, w1) ->
  Value.len cs = Ok n1 ->
  Value.truthy cs = true ->
  contact_stage agent_reply i cs (before_contacts n1 w1) = (Ok (JList []), w2) ->
  let w' := start_outreach agent_reply i w in
  exists new,
    log w' = (new ++ log w)%list
    /\ email_writer_ran new = false
    /\ (forall r, In (ESessionWrite r) new -> emails r = JList [])
    /\ ((exists e rest,
           new = EStError (str_of_exn e) :: failed_marker :: rest
           /\ gtm_results w' = gtm_results w)
        \/ (exists r rest,
              new = completed_marker :: ESessionWrite r :: rest
              /\ emails r = JList []
              /\ gtm_results w' = Some r)).
Proof.
  intros Hv H1 Hn1 Ht H2 w'. subst w'. rewrite (start_outreach_eq _ _ Hv).
  unfold pipeline. open_stages. follow. exec.
  all: worlds; cbn [asked log gtm_results].
  all: eexists; (split; [extends|]).
  all: split; [reflexivity|].
  all: split;
    [ intros r Hr; cbn [In] in Hr;
      repeat (destruct Hr as [Hr|Hr]; [try discriminate|]);
      try contradiction; try (injection Hr as <-; reflexivity)
    | ].
  all: first [ left; do 2 eexists; split; reflexivity
             | right; do 2 eexists; repeat split; reflexivity ].
Qed.

(** ** Further properties of the stage runners *)

(** X3.  Whatever count is requested, zero and negative counts included,
    the company finder returns a prefix of the list under [companies]: as
    many members as the list has, up to [max(1, min(N, 10))]; never more
    than ten, and at least one when the list is not empty. *)
Theorem company_finder_window_any_count
  (agent : Agent) (target_desc offering_desc : string) (N : Z) (w : world)
  (resp : string) (d : list (string * json)) (L : list json) :
  agent_reply (log w) agent
    (prompts.COMPANY_FINDER_PROMPT_TEMPLATE N target_desc offering_desc) = Ok resp ->
  extract_json_or_raise resp = Ok (JDict d) ->
  dict_get d "companies" = Some (JList L) ->
  exists kept,
    fst (run_company_finder agent_reply agent target_desc offering_desc N w)
    = Ok (JList kept)
    /\ kept = firstn (List.length kept) L
    /\ List.length kept
       = Nat.min (List.length L) (Z.to_nat (Z.max 1 (Z.min N 10)))
    /\ (List.length kept <= 10)%nat
    /\ (L <> [] -> kept <> []).
Proof.
  intros Hr He Hd. rewrite run_company_finder_eq, Hr, He.
  cbn [fst Value.get]. rewrite Hd. cbn [Value.slice_to].
  rewrite firstn_clamped by lia.
  set (k := Z.to_nat (Z.max 1 (Z.min N 10))).
  assert (Hk : (1 <= k <= 10)%nat) by (subst k; lia).
  exists (firstn k L). rewrite length_firstn.
  split; [reflexivity|]. split; [|split; [lia|split; [lia|]]].
  - destruct (Nat.le_ge_cases k (List.length L)) as [H|H].
    + now rewrite Nat.min_l.
    + rewrite Nat.min_r by assumption. rewrite firstn_all.
      now apply firstn_all2.
  - intros HL Hn. destruct L as [|x L]; [congruence|].
    destruct k as [|k]; [lia|]. discriminate.
Qed.


(** X5.  When the reply parses to a value that is not an object (an array,
    a string, a number ...), each runner raises the [AttributeError] of the
    missing [get]. *)
Theorem runners_reject_non_object_reply (resp : string) (v : json) :
  extract_json_or_raise resp = Ok v ->
  is_dict v = false ->
  let e := AttributeError ("'" ++ Value.type_name v
                               ++ "' object has no attribute 'get'") in
  (forall agent td od n w,
      agent_reply (log w) agent (prompts.COMPANY_FINDER_PROMPT_TEMPLATE n td od)
      = Ok resp ->
      fst (run_company_finder agent_reply agent td od n w) = Raise e)
  /\ (forall agent cs td od w,
      agent_reply (log w) agent
        (prompts.CONTACT_FINDER_PROMPT_TEMPLATE td od (json_dumps cs)) = Ok resp ->
      fst (run_contact_finder agent_reply agent cs td od w) = Raise e)
  /\ (forall agent cs w,
      agent_reply (log w) agent (prompts.RESEARCH_PROMPT_TEMPLATE (json_dumps cs))
      = Ok resp ->
      fst (run_research agent_reply agent cs w) = Raise e)
  /\ (forall agent ct rs od sn sc cl w,
      agent_reply (log w) agent
        (prompts.EMAIL_WRITER_PROMPT_TEMPLATE sn sc od
           (match cl with Some l => l | None => "N/A" end)
           (json_dumps ct) (json_dumps rs)) = Ok resp ->
      fst (run_email_writer agent_reply agent ct rs od sn sc cl w) = Raise e).
Proof.
  intros He Hv e.
  assert (Hg : forall key, Value.get v key (JList []) = Raise e)
    by (intros key; destruct v; try discriminate; reflexivity).
  split; [|split; [|split]]; intros.
  - rewrite run_company_finder_eq, H, He. cbn [fst]. now rewrite Hg.
  - rewrite run_contact_finder_eq. unfold keyed_reply. rewrite H, He.
    cbn [fst]. apply Hg.
  - rewrite run_research_eq. unfold keyed_reply. rewrite H, He.
    cbn [fst]. apply Hg.
  - rewrite run_email_writer_eq. unfold keyed_reply. rewrite H, He.
    cbn [fst]. apply Hg.
Qed.


(** ** Further properties of a run *)

(** X7.  Without both keys, or without a target and an offering, the
    handler shows the matching error and does nothing else: no agent is
    called and the stored bundle stays. *)
Theorem run_refused_without_inputs (i : Inputs) (w : world) :
  inputs_valid i = false ->
  start_outreach agent_reply i w
  = said [EStError (if is_empty (openai_key i) || is_empty (exa_key i)
                    then keys_missing else inputs_missing)] w.
Proof.
  unfold inputs_valid, start_outreach. intros H.
  destruct (is_empty (openai_key i) || is_empty (exa_key i)); [reflexivity|].
  cbn [negb andb] in H. apply negb_false_iff in H. rewrite H. reflexivity.
Qed.

End Runners.

(** The stored bundle survives a run in which the contact finder answers
    with text that is not JSON; the error shown quotes that text. *)
Lemma failed_run_keeps_stored_result_witness :
  let agents := scripted (Ok one_company) (Ok "garbage") (Ok "{}") (Ok "{}") in
  let w' := start_outreach agents sample_inputs world_with_result in
  (exists e, runner_raises agents sample_inputs world_with_result e
             /\ contains (str_of_exn e) "garbage" = true
             /\ hd_error (log w') = Some (EStError (str_of_exn e)))
  /\ gtm_results w' = Some sample_result
  /\ snd (main agents true sample_inputs world_with_result) = Some sample_result.
Proof.
  intros agents w'.
  destruct (failed_run_keeps_stored_result agents sample_inputs world_with_result
              eq_refl) as (new & Hlog & Hfail & _).
  assert (Hr : runner_raises agents sample_inputs world_with_result
                 (parse_failure (JSONDecodeError expecting_value "garbage" 0)
                    "garbage")).
  { eapply contact_finder_raises; vm_compute; reflexivity. }
  destruct (Hfail _ Hr) as ((rest & ->) & _ & Hres & Hshown).
  split; [|split; assumption].
  eexists. split; [exact Hr|]. split; [vm_compute; reflexivity|].
  fold w' in Hlog. rewrite Hlog. reflexivity.
Defined.

Lemma no_companies_skips_later_stages_witness :
  let agents := scripted (Ok "{}") (Ok "garbage") (Ok "garbage") (Ok "garbage") in
  exists new,
    log (start_outreach agents sample_inputs fresh_world) = (new ++ [])%list
    /\ agents_run new = [create_company_finder_agent]
    /\ hd_error new = Some completed_marker
    /\ no_failure new = true
    /\ gtm_results (start_outreach agents sample_inputs fresh_world)
       = Some empty_result.
Proof.
  intros agents.
  exact (no_companies_skips_later_stages agents sample_inputs fresh_world
           (snd (company_stage agents sample_inputs (before_companies fresh_world)))
           eq_refl eq_refl).
Defined.

Lemma no_contacts_skips_email_writer_witness :
  let agents := scripted (Ok one_company) (Ok "{}") (Ok "{}") (Ok "garbage") in
  exists new,
    log (start_outreach agents sample_inputs fresh_world) = (new ++ [])%list
    /\ email_writer_ran new = false
    /\ (forall r, In (ESessionWrite r) new -> emails r = JList []).
Proof.
  intros agents.
  destruct (no_contacts_skips_email_writer agents sample_inputs fresh_world
              (JList [JDict [("name", JStr "Finco")]]) 1
              (snd (company_stage agents sample_inputs (before_companies fresh_world)))
              (snd (contact_stage agents sample_inputs
                      (JList [JDict [("name", JStr "Finco")]])
                      (before_contacts 1
                         (snd (company_stage agents sample_inputs
                                 (before_companies fresh_world))))))
              eq_refl eq_refl eq_refl eq_refl eq_refl)
    as (new & H1 & H2 & H3 & _).
  exists new. auto.
Defined.

(** Three are asked for, the reply lists five: the first three come back. *)
Lemma company_finder_returns_clamped_prefix_witness :
  let agents := scripted (Ok five_companies) (Ok "{}") (Ok "{}") (Ok "{}") in
  fst (run_company_finder agents create_company_finder_agent
         "fintech" "compliance" 3 fresh_world)
  = Ok (JList [JInt 1; JInt 2; JInt 3]).
Proof.
  intros agents.
  refine (proj1 (company_finder_returns_clamped_prefix agents
                   create_company_finder_agent "fintech" "compliance" 3
                   fresh_world five_companies
                   [("companies", JList [JInt 1; JInt 2; JInt 3; JInt 4; JInt 5])]
                   [JInt 1; JInt 2; JInt 3; JInt 4; JInt 5]
                   _ eq_refl eq_refl eq_refl)).
  lia.
Defined.

(** Every agent answers with the empty object. *)
Lemma runners_default_to_empty_list_without_key_witness :
  let agents := scripted (Ok "{}") (Ok "{}") (Ok "{}") (Ok "{}") in
  fst (run_company_finder agents create_company_finder_agent
         "fintech" "compliance" 3 fresh_world) = Ok (JList [])
  /\ fst (run_contact_finder agents create_contact_finder_agent
            (JList [JStr "Finco"]) "fintech" "compliance" fresh_world)
     = Ok (JList [])
  /\ fst (run_research agents create_research_agent (JList [JStr "Finco"])
            fresh_world) = Ok (JList [])
  /\ fst (run_email_writer agents (create_email_writer_agent "Cold")
            (JList [JStr "c"]) (JList []) "compliance" "Ada" "Acme" None
            fresh_world) = Ok (JList []).
Proof.
  intros agents.
  destruct (runners_default_to_empty_list_without_key agents)
    as (H1 & H2 & H3 & H4).
  split; [|split; [|split]].
  - apply H1 with (resp := "{}") (d := []); reflexivity.
  - apply H2 with (resp := "{}") (d := []); reflexivity.
  - apply H3 with (resp := "{}") (d := []); reflexivity.
  - apply H4 with (resp := "{}") (d := []); reflexivity.
Defined.

(** * Further properties *)

(** ** The response parser *)

Lemma prefix_append (a b : string) : String.prefix a (a ++ b) = true.
Proof.
  induction a as [|c a IH]; [apply prefix_empty|].
  cbn [append]. now rewrite prefix_cons, Ascii.eqb_refl.
Qed.

Lemma contains_append_l (a b c : string) :
  contains b c = true -> contains (a ++ b) c = true.
Proof.
  intros H. induction a as [|x a IH]; [exact H|].
  cbn [append contains]. rewrite IH. apply orb_true_r.
Qed.

Lemma contains_prefix (a b : string) : contains (a ++ b) a = true.
Proof.
  destruct a as [|c a]; [destruct b; reflexivity|].
  pose proof (prefix_append (String c a) b) as H. cbn [append] in H.
  cbn [append contains]. now rewrite H.
Qed.

(** X1.  A reply that is not JSON and has no [{] before a [}] makes the
    parser raise a [ValueError] whose text contains both the reply and the
    text of the decoder's error. *)
Theorem extract_failure_without_braces_quotes_reply (text : string) (e : exn) :
  json_loads text = Raise e ->
  find text "{" = -1 \/ rfind text "}" = -1 \/ rfind text "}" <= find text "{" ->
  exists msg,
    extract_json_or_raise text = Raise (ValueError msg)
    /\ contains msg text = true
    /\ contains msg (str_of_exn e) = true.
Proof.
  intros Hl Hb. eexists. split; [|split].
  - rewrite (extract_no_brace_pair text e Hl Hb). reflexivity.
  - apply (parse_failure_includes_text e text).
  - apply contains_append_l, contains_prefix.
Qed.

Lemma extract_failure_without_braces_quotes_reply_witness :
  exists msg,
    extract_json_or_raise "no result" = Raise (ValueError msg)
    /\ contains msg "no result" = true
    /\ contains msg "Expecting value: line 1 column 1 (char 0)" = true.
Proof.
  exact (extract_failure_without_braces_quotes_reply "no result"
           (JSONDecodeError expecting_value "no result" 0)
           eq_refl (or_introl eq_refl)).
Defined.

(** Where [find] reports an occurrence, the text from there on starts with
    what was searched. *)
Lemma find_from_found (s sub : string) (i j : Z) :
  find_from i s sub = j -> j <> -1 -> 0 <= i ->
  i <= j /\ String.prefix sub (drop (Z.to_nat (j - i)) s) = true.
Proof.
  revert i. induction s as [|c s IH]; intros i H Hj Hi; cbn [find_from] in H.
  - destruct (String.prefix sub EmptyString) eqn:E; [|congruence].
    subst j. replace (i - i) with 0 by lia. cbn. split; [lia|assumption].
  - destruct (String.prefix sub (String c s)) eqn:E.
    + subst j. replace (i - i) with 0 by lia. cbn. split; [lia|assumption].
    + destruct (IH (i + 1) H Hj ltac:(lia)) as [Hle Hp]. split; [lia|].
      replace (Z.to_nat (j - i)) with (S (Z.to_nat (j - (i + 1)))) by lia.
      exact Hp.
Qed.

Lemma drop_shorter (n : nat) (s : string) (c : ascii) (t : string) :
  drop n s = String c t -> (n < String.length s)%nat.
Proof.
  intros H. pose proof (drop_length n s) as Hl. rewrite H in Hl.
  cbn [String.length] in Hl. lia.
Qed.

(** A slice that starts inside the text and ends after its start begins
    with the character at the start. *)
Lemma slice_head (s : string) (a b : Z) (c : ascii) (t : string) :
  0 <= a < b ->
  drop (Z.to_nat a) s = String c t ->
  exists t', slice s a b = String c t'.
Proof.
  intros Hab Hd. pose proof (drop_shorter _ _ _ _ Hd) as Hlt.
  unfold slice, adjust_index.
  destruct (Z.ltb_spec a 0); [lia|]. destruct (Z.ltb_spec b 0); [lia|].
  replace (Z.to_nat (Z.min (Z.of_nat (String.length s)) (Z.max 0 a)))
    with (Z.to_nat a) by lia.
  rewrite Hd.
  destruct (Z.to_nat (Z.min (Z.of_nat (String.length s)) (Z.max 0 b))
            - Z.to_nat a)%nat eqn:En; [lia|].
  cbn [take]. eauto.
Qed.

(** A document that starts with [{] decodes to a dictionary or not at
    all. *)
Lemma json_loads_brace (t : string) (v : json) :
  json_loads (String "{" t) = Ok v -> exists d, v = JDict d.
Proof.
  unfold json_loads. cbn [skip_ws is_ws Ascii.eqb Bool.eqb orb].
  destruct (startswith _ bom); [discriminate|].
  unfold fuel_for. cbn [String.length Nat.mul Nat.add].
  cbn [scan_once Ascii.eqb Bool.eqb dquote].
  destruct (skip_ws t) as [|c1 r2]; [discriminate|].
  repeat match goal with
         | |- context [if ?b then _ else _] => destruct b
         end;
    try discriminate.
  - destruct (skip_ws r2); [|discriminate]. intros H. injection H as <-. eauto.
  - destruct (object_items _ r2) as [pairs r| |]; cbn [pmap]; try discriminate.
    destruct (skip_ws r); [|discriminate]. intros H. injection H as <-. eauto.
Qed.

(** X2.  What the parser recovers from a reply that is not JSON as a whole
    is always an object: the block it reads starts with [{]. *)
Theorem extract_recovered_value_is_object (text : string) (e : exn) (v : json) :
  json_loads text = Raise e ->
  extract_json_or_raise text = Ok v ->
  exists d, v = JDict d.
Proof.
  intros Hl. unfold extract_json_or_raise. rewrite Hl.
  destruct (Z.eqb_spec (find text "{") (-1)) as [|Hs]; [discriminate|].
  destruct (Z.eqb_spec (rfind text "}") (-1)) as [|He]; [discriminate|].
  destruct (Z.gtb_spec (rfind text "}") (find text "{")) as [Hlt|];
    [|discriminate].
  cbn [negb andb]. intros H.
  destruct (find_from_found text "{" 0 (find text "{") eq_refl Hs ltac:(lia))
    as [H0 Hp].
  rewrite Z.sub_0_r in Hp. rewrite prefix1 in Hp.
  destruct (drop (Z.to_nat (find text "{")) text) as [|c t] eqn:Hd;
    [discriminate|].
  apply Ascii.eqb_eq in Hp. subst c.
  destruct (slice_head text (find text "{") (rfind text "}" + 1) "{" t
              ltac:(lia) Hd) as [t' Et].
  rewrite Et in H. now apply json_loads_brace in H.
Qed.

Lemma extract_recovered_value_is_object_witness :
  exists d,
    JDict [("companies", JList [])] = JDict d.
Proof.
  exact (extract_recovered_value_is_object
           in_prose (JSONDecodeError expecting_value in_prose 0)
           (JDict [("companies", JList [])]) eq_refl eq_refl).
Defined.

(** ** Further sample runs *)

(** A requested count of zero still yields one company. *)
Lemma company_finder_window_any_count_witness :
  let agents := scripted (Ok five_companies) (Ok "{}") (Ok "{}") (Ok "{}") in
  exists kept,
    fst (run_company_finder agents create_company_finder_agent
           "fintech" "compliance" 0 fresh_world) = Ok (JList kept)
    /\ kept = firstn (List.length kept) [JInt 1; JInt 2; JInt 3; JInt 4; JInt 5]
    /\ List.length kept = 1%nat
    /\ (List.length kept <= 10)%nat
    /\ ([JInt 1; JInt 2; JInt 3; JInt 4; JInt 5] <> [] -> kept <> []).
Proof.
  intros agents.
  exact (company_finder_window_any_count agents create_company_finder_agent
           "fintech" "compliance" 0 fresh_world five_companies
           [("companies", JList [JInt 1; JInt 2; JInt 3; JInt 4; JInt 5])]
           [JInt 1; JInt 2; JInt 3; JInt 4; JInt 5] eq_refl eq_refl eq_refl).
Defined.


(** The reply [[]]. *)
Lemma runners_reject_non_object_reply_witness :
  let agents := scripted (Ok "[]") (Ok "[]") (Ok "[]") (Ok "[]") in
  fst (run_company_finder agents create_company_finder_agent
         "fintech" "compliance" 3 fresh_world)
  = Raise (AttributeError "'list' object has no attribute 'get'").
Proof.
  intros agents.
  exact (proj1 (runners_reject_non_object_reply agents "[]" (JList [])
                  eq_refl eq_refl)
           create_company_finder_agent "fintech" "compliance" 3 fresh_world
           eq_refl).
Defined.

(** The Exa key is missing. *)
Lemma run_refused_without_inputs_witness :
  let agents := scripted (Ok one_company) (Ok "{}") (Ok "{}") (Ok "{}") in
  start_outreach agents no_key_inputs world_with_result
  = said [EStError keys_missing] world_with_result.
Proof.
  intros agents.
  exact (run_refused_without_inputs agents no_key_inputs world_with_result
           eq_refl).
Defined.
